(** * gitma_canspin.annotation_collection: a shallow embedding

    The module [annotation_collection.py] aggregates the annotations of one
    CATMA annotation collection, flattens them into a table with one column
    per property, and offers queries, statistics and a CSV round trip over
    that table.  This file embeds the functions of that module as Rocq
    definitions and proves (or refutes) statements about them.

    Conventions of the embedding:
    - a Python [str] is a [string]; a Python [int] is a [Z];
    - a Python [dict] with string keys is an association list in insertion
      order whose keys are pairwise distinct ([dict_wf]);
    - code that can raise returns in the exception monad [exc];
    - a pandas [DataFrame] is column oriented: the length of its index and
      the list of its labelled columns. *)

From Stdlib Require Import String Ascii List ZArith Lia Bool Arith.
From Stdlib Require Import Permutation Sorted Recdef FunInd DecimalString.
Import ListNotations.
Open Scope string_scope.
Open Scope list_scope.

(** ** Exceptions *)

Inductive exn : Type :=
| KeyError
| AttributeError
| TypeError
| ReError
| ValueError (msg : string)
| FileNotFoundError (msg : string).

Inductive exc (A : Type) : Type :=
| Ok (a : A)
| Raise (e : exn).

Arguments Ok {A} a.
Arguments Raise {A} e.

Definition bind {A B : Type} (m : exc A) (k : A -> exc B) : exc B :=
  match m with
  | Ok a => k a
  | Raise e => Raise e
  end.

Notation "x <- m ;; k" := (bind m (fun x => k))
  (at level 61, m at next level, right associativity).

Fixpoint mapM {A B : Type} (f : A -> exc B) (l : list A) : exc (list B) :=
  match l with
  | [] => Ok []
  | a :: l' => b <- f a ;; bs <- mapM f l' ;; Ok (b :: bs)
  end.

(** ** Python strings *)

Definition space : ascii := " "%char.
Definition newline : ascii := "010"%char.
Definition comma : ascii := ","%char.

(** [s.startswith(p)]. *)
Fixpoint starts_with (p s : string) : bool :=
  match p with
  | EmptyString => true
  | String a p' =>
      match s with
      | EmptyString => false
      | String b s' => Ascii.eqb a b && starts_with p' s'
      end
  end.

(** [sub in s]. *)
Fixpoint str_in (sub s : string) : bool :=
  starts_with sub s
  || match s with
     | EmptyString => false
     | String _ s' => str_in sub s'
     end.

(** [c in s] for a single character. *)
Fixpoint char_in (c : ascii) (s : string) : bool :=
  match s with
  | EmptyString => false
  | String d s' => Ascii.eqb c d || char_in c s'
  end.

(** [s.replace(old, new)] for a non-empty [old]: the occurrences are found
    from the left and do not overlap; [skip] counts the characters of the
    occurrence being consumed. *)
Fixpoint str_replace_from (old new : string) (skip : nat) (s : string) : string :=
  match s with
  | EmptyString => EmptyString
  | String c s' =>
      match skip with
      | S n => str_replace_from old new n s'
      | O =>
          if starts_with old s
          then new ++ str_replace_from old new (String.length old - 1) s'
          else String c (str_replace_from old new 0 s')
      end
  end.

Definition str_replace (old new s : string) : string :=
  str_replace_from old new 0 s.

(** [s.split(sep)] for a one-character separator: never returns the empty
    list, and two adjacent separators delimit an empty string. *)
Fixpoint str_split (sep : ascii) (s : string) : list string :=
  match s with
  | EmptyString => [EmptyString]
  | String c s' =>
      if Ascii.eqb c sep then EmptyString :: str_split sep s'
      else match str_split sep s' with
           | [] => [String c EmptyString]
           | w :: ws => String c w :: ws
           end
  end.

(** [sep.join(l)]. *)
Fixpoint str_join (sep : string) (l : list string) : string :=
  match l with
  | [] => EmptyString
  | [x] => x
  | x :: l' => x ++ sep ++ str_join sep l'
  end.

(** [s.translate(str.maketrans('', '', deleted))]: drops the characters of
    [deleted]. *)
Fixpoint str_delete_chars (deleted : string) (s : string) : string :=
  match s with
  | EmptyString => EmptyString
  | String c s' =>
      if char_in c deleted then str_delete_chars deleted s'
      else String c (str_delete_chars deleted s')
  end.

(** ** Python dictionaries with string keys *)

Definition dict (V : Type) : Type := list (string * V).

Definition dict_keys {V} (d : dict V) : list string := map fst d.

Definition dict_wf {V} (d : dict V) : Prop := NoDup (dict_keys d).

Definition key_in (k : string) (ks : list string) : bool :=
  existsb (String.eqb k) ks.

(** [k in d]. *)
Definition dict_mem {V} (k : string) (d : dict V) : bool :=
  key_in k (dict_keys d).

(** [d.get(k)]. *)
Fixpoint dict_get {V} (d : dict V) (k : string) : option V :=
  match d with
  | [] => None
  | (k', v) :: d' => if String.eqb k k' then Some v else dict_get d' k
  end.

(** [d[k]]. *)
Definition dict_item {V} (d : dict V) (k : string) : exc V :=
  match dict_get d k with
  | Some v => Ok v
  | None => Raise KeyError
  end.

(** [d[k] = v]: replaces the value of an existing key in place, appends a
    new key at the end. *)
Fixpoint dict_set {V} (d : dict V) (k : string) (v : V) : dict V :=
  match d with
  | [] => [(k, v)]
  | (k', v') :: d' =>
      if String.eqb k k' then (k', v) :: d' else (k', v') :: dict_set d' k v
  end.

(** ** The collaborators: Tag and Annotation *)

#[local] Set Warnings "-register-all".

Inductive Tag : Type :=
| MkTag (name : string) (full_path : string) (parent : option Tag).

Definition tag_name (t : Tag) : string :=
  match t with MkTag n _ _ => n end.

Definition tag_full_path (t : Tag) : string :=
  match t with MkTag _ p _ => p end.

Definition tag_parent (t : Tag) : option Tag :=
  match t with MkTag _ _ p => p end.

(** A property maps to a sequence of string values. *)
Definition properties_t : Type := dict (list string).

Record Annotation : Type := mkAnnotation {
  uuid : string;
  author : string;
  tag : Tag;
  properties : properties_t;
  pretext : string;
  text : string;
  posttext : string;
  start_point : Z;
  end_point : Z;
  date : string
}.

Definition annotation_wf (a : Annotation) : Prop := dict_wf (properties a).

(** ** Data frames *)

Inductive cell : Type :=
| CStr (s : string)
| CInt (z : Z)
| CDict (d : properties_t)
| CList (l : list string).

Record DataFrame : Type := mkDF {
  n_rows : nat;
  columns : dict (list cell)
}.

(** [pd.DataFrame(tuples, columns=labels)]. *)
Definition DataFrame_of_tuples (tuples : list (list cell)) (labels : list string)
  : DataFrame :=
  mkDF (length tuples)
       (combine labels
          (map (fun j => map (fun t => nth j t (CStr "")) tuples)
               (seq 0 (length labels)))).

(** [pd.DataFrame(columns=labels)]. *)
Definition DataFrame_empty (labels : list string) : DataFrame :=
  mkDF 0 (map (fun c => (c, [])) labels).

(** [df.columns]. *)
Definition df_column_labels (df : DataFrame) : list string :=
  dict_keys (columns df).

(** [df[label]]. *)
Definition df_get (df : DataFrame) (label : string) : exc (list cell) :=
  dict_item (columns df) label.

(** [df[label] = values] for a list of values: pandas refuses a list whose
    length differs from the length of the index. *)
Definition df_set (df : DataFrame) (label : string) (values : list cell)
  : exc DataFrame :=
  if Nat.eqb (length values) (n_rows df)
  then Ok (mkDF (n_rows df) (dict_set (columns df) label values))
  else Raise (ValueError "Length of values does not match length of index").

(** [df.drop(columns=label)]. *)
Definition df_drop (df : DataFrame) (label : string) : exc DataFrame :=
  if dict_mem label (columns df)
  then Ok (mkDF (n_rows df)
             (filter (fun kc => negb (String.eqb label (fst kc))) (columns df)))
  else Raise KeyError.

(** [series.apply(f)] for a function on strings. *)
Definition series_apply_str (f : string -> string) (col : list cell)
  : exc (list cell) :=
  mapM (fun c => match c with
                 | CStr s => Ok (CStr (f s))
                 | _ => Raise TypeError
                 end) col.

(** ** split_property_dict_to_column *)

Definition nan_marker : list string := ["nan"].

Definition PropertiesDict : Type := dict (list (list string)).

(** [properties_dict[key].append(v)]. *)
Fixpoint pd_append (pd : PropertiesDict) (key : string) (v : list string)
  : PropertiesDict :=
  match pd with
  | [] => []
  | (k, col) :: pd' =>
      if String.eqb key k then (k, col ++ [v]) :: pd'
      else (k, col) :: pd_append pd' key v
  end.

(** [item[key]] for a key taken from [item] itself. *)
Definition item_value (item : properties_t) (key : string) : list string :=
  match dict_get item key with
  | Some v => v
  | None => []
  end.

(** The first inner loop: [for key in item]. *)
Definition add_item_keys (index : nat) (item : properties_t)
  (properties_dict : PropertiesDict) : PropertiesDict :=
  fold_left
    (fun pd key =>
       if negb (dict_mem key pd)
       then dict_set pd key (repeat nan_marker index ++ [item_value item key])
       else pd_append pd key (item_value item key))
    (dict_keys item) properties_dict.

(** The second inner loop: [for prop in properties_dict]. *)
Definition pad_missing (item : properties_t) (properties_dict : PropertiesDict)
  : PropertiesDict :=
  map (fun entry =>
         if negb (dict_mem (fst entry) item)
         then (fst entry, snd entry ++ [nan_marker])
         else entry)
      properties_dict.

(** The outer loop: [for index, item in enumerate(ac_df['properties'])]. *)
Fixpoint collect_properties (index : nat) (items : list properties_t)
  (properties_dict : PropertiesDict) : PropertiesDict :=
  match items with
  | [] => properties_dict
  | item :: rest =>
      collect_properties (S index) rest
        (pad_missing item (add_item_keys index item properties_dict))
  end.

Definition cell_dict (c : cell) : exc properties_t :=
  match c with
  | CDict d => Ok d
  | _ => Raise TypeError
  end.

(** The last loop: [ac_df[f'prop:{prop}'] = properties_dict[prop]]. *)
Fixpoint assign_property_columns (ac_df : DataFrame)
  (properties_dict : PropertiesDict) : exc DataFrame :=
  match properties_dict with
  | [] => Ok ac_df
  | (prop, col) :: rest =>
      df' <- df_set ac_df ("prop:" ++ prop) (map CList col) ;;
      assign_property_columns df' rest
  end.

Definition split_property_dict_to_column (ac_df : DataFrame) : exc DataFrame :=
  col <- df_get ac_df "properties" ;;
  items <- mapM cell_dict col ;;
  let properties_dict := collect_properties 0 items [] in
  df' <- assign_property_columns ac_df properties_dict ;;
  df_drop df' "properties".

(** ** clean_text_in_ac_df *)

(** [re.sub('\n', ' ', s)]. *)
Fixpoint newlines_to_spaces (s : string) : string :=
  match s with
  | EmptyString => EmptyString
  | String c s' =>
      String (if Ascii.eqb c newline then space else c) (newlines_to_spaces s')
  end.

(** [re.sub(' +', ' ', s)]: every maximal run of spaces becomes one space. *)
Fixpoint collapse_spaces (s : string) : string :=
  match s with
  | EmptyString => EmptyString
  | String c s' =>
      match s' with
      | String d _ =>
          if Ascii.eqb c space && Ascii.eqb d space then collapse_spaces s'
          else String c (collapse_spaces s')
      | EmptyString => String c EmptyString
      end
  end.

Definition clean_text_in_ac_df (annotation : string) : string :=
  collapse_spaces (newlines_to_spaces annotation).

(** ** ac_to_df *)

Definition df_columns : list string :=
  [ "document"; "annotation collection"; "annotator";
    "tag"; "tag_path"; "properties"; "left_context"; "annotation";
    "right_context"; "start_point"; "end_point"; "date" ].

Definition annotation_tuple (text_title ac_name : string) (a : Annotation)
  : list cell :=
  [ CStr text_title; CStr ac_name; CStr (author a); CStr (tag_name (tag a));
    CStr (tag_full_path (tag a)); CDict (properties a); CStr (pretext a);
    CStr (text a); CStr (posttext a); CInt (start_point a);
    CInt (end_point a); CStr (date a) ].

(** [df[label] = df[label].apply(clean_text_in_ac_df)]. *)
Definition clean_column (df : DataFrame) (label : string) : exc DataFrame :=
  col <- df_get df label ;;
  col' <- series_apply_str clean_text_in_ac_df col ;;
  df_set df label col'.

Definition ac_to_df (annotations : list Annotation) (text_title ac_name : string)
  : exc DataFrame :=
  let df := DataFrame_of_tuples
              (map (annotation_tuple text_title ac_name) annotations)
              df_columns in
  df <- split_property_dict_to_column df ;;
  df <- clean_column df "left_context" ;;
  df <- clean_column df "annotation" ;;
  df <- clean_column df "right_context" ;;
  Ok df.

(** ** most_common_token *)

Definition dquote : ascii := "034"%char.

(** [string.punctuation]. *)
Definition punctuation : string :=
  String "!"%char (String dquote "#$%&'()*+,-./:;<=>?@[\]^_`{|}~").

(** [l.remove(x)] for an [x] that occurs in [l]: drops the first
    occurrence. *)
Fixpoint list_remove (x : string) (l : list string) : list string :=
  match l with
  | [] => []
  | y :: l' => if String.eqb x y then l' else y :: list_remove x l'
  end.

Lemma list_remove_shorter (x : string) (l : list string) :
  key_in x l = true -> length (list_remove x l) < length l.
Proof.
  induction l as [|y l IH]; simpl.
  - discriminate.
  - destruct (String.eqb x y); simpl; intros H.
    + lia.
    + apply IH in H. lia.
Qed.

(** [while '' in token_list: token_list.remove('')]. *)
Function remove_empty_tokens (token_list : list string)
  {measure length token_list} : list string :=
  if key_in "" token_list
  then remove_empty_tokens (list_remove "" token_list)
  else token_list.
Proof.
  intros token_list H. apply list_remove_shorter. exact H.
Defined.

(** [Counter(tokens)]: a dict from token to count, in the order in which
    the tokens are first met. *)
Fixpoint counter_incr (c : dict nat) (tok : string) : dict nat :=
  match c with
  | [] => [(tok, 1)]
  | (k, n) :: c' =>
      if String.eqb tok k then (k, S n) :: c' else (k, n) :: counter_incr c' tok
  end.

Definition Counter (tokens : list string) : dict nat :=
  fold_left counter_incr tokens [].

(** [sorted(items, key=itemgetter(1), reverse=True)]: a stable sort, items
    of equal count keep their order. *)
Fixpoint insert_by_count (x : string * nat) (l : list (string * nat))
  : list (string * nat) :=
  match l with
  | [] => [x]
  | y :: l' =>
      if Nat.ltb (snd x) (snd y) then y :: insert_by_count x l'
      else x :: l
  end.

Definition sorted_by_count_desc (items : list (string * nat))
  : list (string * nat) :=
  fold_right insert_by_count [] items.

(** [Counter.most_common(n)] for an integer [n]: [heapq.nlargest(n, items,
    key=itemgetter(1))], which is [sorted(items, key, reverse=True)[:n]] and
    is empty for [n <= 0]. *)
Definition most_common (c : dict nat) (n : Z) : list (string * nat) :=
  firstn (Z.to_nat n) (sorted_by_count_desc c).

(** [stopwords] is [None] or a list; [if stopwords:] holds for a non-empty
    list. *)
Definition most_common_token (annotation_col : list string)
  (stopwords : option (list string)) (ranking : Z) : dict nat :=
  let token_list :=
    fold_left
      (fun token_list str_item =>
         let removed_punctation := str_delete_chars punctuation str_item in
         token_list ++ str_split space removed_punctation)
      annotation_col [] in
  let token_list := remove_empty_tokens token_list in
  let token_list :=
    match stopwords with
    | Some (w :: ws) =>
        filter (fun token => negb (key_in token (w :: ws))) token_list
    | _ => token_list
    end in
  most_common (Counter token_list) ranking.

(** The description of the result in the words of the specification. *)

Definition spec_tokens (texts : list string) (stopwords : option (list string))
  : list string :=
  let stop := match stopwords with Some l => l | None => [] end in
  filter (fun t => negb (key_in t stop))
    (filter (fun t => negb (String.eqb t ""))
       (flat_map (fun s => str_split space (str_delete_chars punctuation s))
          texts)).

(** Number of occurrences of a token. *)
Definition frequency (t : string) (tokens : list string) : nat :=
  count_occ string_dec tokens t.

(** Position at which a token is first met. *)
Fixpoint first_index (t : string) (tokens : list string) : nat :=
  match tokens with
  | [] => 0
  | x :: l => if String.eqb t x then 0 else S (first_index t l)
  end.

(** The distinct tokens, in the order in which they are first met. *)
Fixpoint distinct (tokens : list string) : list string :=
  match tokens with
  | [] => []
  | t :: l => t :: filter (fun u => negb (String.eqb u t)) (distinct l)
  end.

(** [p] is ranked before [q]: a higher count, or the same count and met
    earlier. *)
Definition ranked_before (tokens : list string) (p q : string * nat) : Prop :=
  snd q < snd p \/
  (snd p = snd q /\ first_index (fst p) tokens < first_index (fst q) tokens).

(** ** The collection and its environment *)

Record Text : Type := mkText {
  title : string;
  plain_text : string
}.

Record CatmaProject : Type := mkProject {
  project_uuid : string;
  projects_directory : string
}.

(** What the constructor reads from its environment: the header file
    ([open] and [json.load]), the [Text] collaborator, the directory test,
    the annotations built from the page files of a directory for a context
    size, and the order [Annotation.__lt__] used by [sorted]. *)
Record World : Type := mkWorld {
  open_header : string -> exc (dict string);
  load_text : string -> string -> exc Text;
  isdir : string -> bool;
  page_annotations : string -> Z -> exc (list Annotation);
  annotation_lt : Annotation -> Annotation -> bool
}.

Record AnnotationCollection : Type := mkAC {
  ac_uuid : string;
  ac_projects_directory : string;
  ac_project_uuid : string;
  ac_directory : string;
  ac_header : dict string;
  ac_name : string;
  ac_plain_text_id : string;
  ac_text : Text;
  ac_text_version : option string;
  ac_annotations : list Annotation;
  ac_tags : option (list Tag);
  ac_df : DataFrame
}.

(** [sorted(l)] with the order of the elements: stable. *)
Fixpoint insert_sorted (lt : Annotation -> Annotation -> bool) (x : Annotation)
  (l : list Annotation) : list Annotation :=
  match l with
  | [] => [x]
  | y :: l' => if lt y x then y :: insert_sorted lt x l' else x :: l
  end.

Definition sorted (lt : Annotation -> Annotation -> bool) (l : list Annotation)
  : list Annotation :=
  fold_right (insert_sorted lt) [] l.

(** [load_annotations]: the annotations of all page files below
    [<cwd>/<project>/collections/<collection>/annotations/]. *)
Definition load_annotations (w : World) (catma_project : CatmaProject)
  (collection_uuid : string) (context : Z) : exc (list Annotation) :=
  let base_dir := (project_uuid catma_project ++ "/collections/"
                   ++ collection_uuid ++ "/annotations/")%string in
  page_annotations w base_dir context.

Definition header_not_found_message (directory : string) : string :=
  ("The annotation collection at this path could not be found: " ++ directory
   ++ String newline
        "                    --> Make sure the CATMA project clone worked properly.")%string.

(** [AnnotationCollection.__init__]. *)
Definition init (w : World) (uuid_arg : string) (catma_project : CatmaProject)
  (context : Z) : exc AnnotationCollection :=
  let directory := (project_uuid catma_project ++ "/collections/"
                    ++ uuid_arg ++ "/")%string in
  header <- match open_header w (directory ++ "header.json") with
            | Raise (FileNotFoundError _) =>
                Raise (FileNotFoundError (header_not_found_message directory))
            | r => r
            end ;;
  name <- dict_item header "name" ;;
  plain_text_id <- dict_item header "sourceDocumentId" ;;
  text <- load_text w (project_uuid catma_project) plain_text_id ;;
  let text_version := dict_get header "sourceDocumentVersion" in
  let partial annotations tags df :=
    mkAC uuid_arg (projects_directory catma_project)
         (project_uuid catma_project) directory header name plain_text_id
         text text_version annotations tags df in
  if isdir w (directory ++ "annotations/")
  then
    loaded <- load_annotations w catma_project uuid_arg context ;;
    let annotations := sorted (annotation_lt w) loaded in
    let tags := map tag annotations in
    df <- ac_to_df annotations (title text) name ;;
    Ok (partial annotations (Some tags) df)
  else
    Ok (partial [] None (DataFrame_empty df_columns)).

(** [annotation_dict]: [{an.uuid: an for an in self.annotations}]. *)
Definition annotation_dict (self : AnnotationCollection) : dict Annotation :=
  fold_left (fun d an => dict_set d (uuid an) an) (ac_annotations self) [].

(** ** The property names of the table *)

(** The property names the table shows:
    [[item.replace('prop:', '') for item in self.df.columns if 'prop:' in item]]. *)
Definition prop_cols (df : DataFrame) : list string :=
  map (str_replace "prop:" "")
      (filter (str_in "prop:") (df_column_labels df)).

(** ** filter_by_tag_path *)

(** [df[mask]]: the rows at which the mask holds. *)
Fixpoint mask_select {A} (mask : list bool) (l : list A) : list A :=
  match mask, l with
  | b :: mask', x :: l' =>
      if b then x :: mask_select mask' l' else mask_select mask' l'
  | _, _ => []
  end.

Definition df_select (df : DataFrame) (mask : list bool) : DataFrame :=
  mkDF (length (filter (fun b => b) (firstn (n_rows df) mask)))
       (map (fun kc => (fst kc, mask_select mask (snd kc))) (columns df)).

(** The characters with a special meaning in a pattern of [re]. *)
Definition re_metachars : string := ".^$*+?{}[]\|()".

(** The patterns made of ordinary characters and of [.]. *)
Inductive re_atom : Type :=
| RLit (c : ascii)
| RAny.

Fixpoint re_parse_simple (pat : string) : option (list re_atom) :=
  match pat with
  | EmptyString => Some []
  | String c pat' =>
      match re_parse_simple pat' with
      | None => None
      | Some atoms =>
          if Ascii.eqb c "."%char then Some (RAny :: atoms)
          else if char_in c re_metachars then None
          else Some (RLit c :: atoms)
      end
  end.

Definition re_atom_matches (a : re_atom) (c : ascii) : bool :=
  match a with
  | RLit d => Ascii.eqb d c
  | RAny => negb (Ascii.eqb c newline)
  end.

Fixpoint re_match_here (atoms : list re_atom) (s : string) : bool :=
  match atoms with
  | [] => true
  | a :: atoms' =>
      match s with
      | EmptyString => false
      | String c s' => re_atom_matches a c && re_match_here atoms' s'
      end
  end.

(** [re.search] for a pattern of the simple fragment: a match at some
    position. *)
Fixpoint re_search_atoms (atoms : list re_atom) (s : string) : bool :=
  re_match_here atoms s
  || match s with
     | EmptyString => false
     | String _ s' => re_search_atoms atoms s'
     end.

(** An engine that knows the simple fragment only; it serves to evaluate
    the definitions below on patterns of that fragment. *)
Definition re_compile_simple (pat : string) : exc (string -> bool) :=
  match re_parse_simple pat with
  | Some atoms => Ok (re_search_atoms atoms)
  | None => Raise ReError
  end.

Section FilterByTagPath.

(** The regular expression engine behind [Series.str.contains], whose
    parameter [regex] is [True] unless the caller says otherwise:
    [re_compile pat] is [re.compile(pat)], which raises for an invalid
    pattern and otherwise gives the search of the compiled pattern in a
    string. *)
Variable re_compile : string -> exc (string -> bool).

(** [series.str.contains(pat)] on a column of strings: the pattern is
    compiled once, before any row is looked at. *)
Definition str_contains (col : list cell) (pat : string) : exc (list bool) :=
  search <- re_compile pat ;;
  mapM (fun c => match c with
                 | CStr s => Ok (search s)
                 | _ => Raise TypeError
                 end) col.

Definition filter_by_tag_path (self : AnnotationCollection)
  (path_element : string) : exc DataFrame :=
  tag_path <- match df_get (ac_df self) "tag_path" with
              | Raise KeyError => Raise AttributeError
              | r => r
              end ;;
  mask <- str_contains tag_path path_element ;;
  Ok (df_select (ac_df self) mask).

End FilterByTagPath.

(** What the engine does on the simple fragment. *)
Definition re_engine_ok (re_compile : string -> exc (string -> bool)) : Prop :=
  forall pat atoms,
    re_parse_simple pat = Some atoms ->
    exists search,
      re_compile pat = Ok search /\
      forall s, search s = re_search_atoms atoms s.

(** ** get_annotation_by_tag *)

(** [annotation.tag.name == tag_name or annotation.tag.parent.name == tag_name]:
    the right operand is evaluated only when the left one is false. *)
Definition tag_or_parent_named (tag_name_arg : string) (annotation : Annotation)
  : exc bool :=
  if String.eqb (tag_name (tag annotation)) tag_name_arg then Ok true
  else match tag_parent (tag annotation) with
       | Some p => Ok (String.eqb (tag_name p) tag_name_arg)
       | None => Raise AttributeError
       end.

Fixpoint filterM {A} (f : A -> exc bool) (l : list A) : exc (list A) :=
  match l with
  | [] => Ok []
  | x :: l' =>
      b <- f x ;;
      rest <- filterM f l' ;;
      Ok (if b then x :: rest else rest)
  end.

Definition get_annotation_by_tag (self : AnnotationCollection)
  (tag_name_arg : string) : exc (list Annotation) :=
  filterM (tag_or_parent_named tag_name_arg) (ac_annotations self).

(** ** write_annotation_csv *)

(** The argument [tags]: a string (['all'] by default) or a list of tag
    names. *)
Inductive tags_arg : Type :=
| TagsStr (s : string)
| TagsList (l : list string).

(** [tags == 'all']. *)
Definition tags_is_all (tags : tags_arg) : bool :=
  match tags with
  | TagsStr s => String.eqb s "all"
  | TagsList _ => false
  end.

(** [name in tags]: a substring test on a string, membership in a list. *)
Definition tags_contains (tags : tags_arg) (name : string) : bool :=
  match tags with
  | TagsStr s => str_in name s
  | TagsList l => key_in name l
  end.

(** The rows collected in [annotation_output]; a row is a dict whose keys
    are in the order in which the source writes them. *)
Definition annotation_output (self : AnnotationCollection) (tags : tags_arg)
  (property : string) (only_missing_prop_values : bool)
  : list (dict string) :=
  let annotations :=
    if tags_is_all tags then ac_annotations self
    else filter (fun an => tags_contains tags (tag_name (tag an)))
           (ac_annotations self) in
  let properties_sel :=
    if String.eqb property "all" then prop_cols (ac_df self)
    else [property] in
  flat_map
    (fun an =>
       flat_map
         (fun prop =>
            if key_in prop properties_sel then
              if only_missing_prop_values then
                if Nat.ltb (length (item_value (properties an) prop)) 1 then
                  [ [ ("id", uuid an);
                      ("annotation_collection", ac_name self);
                      ("tag", tag_name (tag an));
                      ("text", clean_text_in_ac_df (text an));
                      ("property", prop);
                      ("values", "") ] ]
                else []
              else
                [ [ ("id", uuid an);
                    ("annotation_collection", ac_name self);
                    ("text", clean_text_in_ac_df (text an));
                    ("tag", tag_name (tag an));
                    ("property", prop);
                    ("values", str_join "," (item_value (properties an) prop)) ] ]
            else [])
         (dict_keys (properties an)))
    annotations.

(** [pd.DataFrame(records)] for a list of dicts: the labels are the keys in
    the order in which the records show them. *)
Definition record_labels (records : list (dict string)) : list string :=
  fold_left
    (fun labels r =>
       labels ++ filter (fun k => negb (key_in k labels)) (dict_keys r))
    records [].

(** A field as [to_csv] writes it: quoted when it holds the separator, a
    quote or the line feed that ends a line, with the quotes inside
    doubled; a carriage return alone does not make it quoted. *)
Fixpoint csv_double_quotes (s : string) : string :=
  match s with
  | EmptyString => EmptyString
  | String c s' =>
      if Ascii.eqb c dquote
      then String dquote (String dquote (csv_double_quotes s'))
      else String c (csv_double_quotes s')
  end.

Definition csv_field (sep : ascii) (s : string) : string :=
  if char_in sep s || char_in dquote s || char_in newline s
  then String dquote (csv_double_quotes s ++ String dquote "")
  else s.

Definition csv_line (sep : ascii) (fields : list string) : string :=
  (str_join (String sep "") (map (csv_field sep) fields)
   ++ String newline "")%string.

(** [annotation_df.to_csv(path, index=None, sep=";")]: the header line and
    one line per record. *)
Definition to_csv (sep : ascii) (records : list (dict string)) : list string :=
  let labels := record_labels records in
  csv_line sep labels
  :: map (fun r => csv_line sep (map (fun k => match dict_get r k with
                                               | Some v => v
                                               | None => EmptyString
                                               end) labels))
       records.

(** [write_annotation_csv]: the path of the file and its lines. *)
Definition write_annotation_csv (self : AnnotationCollection) (tags : tags_arg)
  (property : string) (only_missing_prop_values : bool) (filename : string)
  : string * list string :=
  ((filename ++ ".csv")%string,
   to_csv ";"%char
     (annotation_output self tags property only_missing_prop_values)).

(** ** read_annotation_csv *)

(** The value of a cell of the table that [pd.read_csv] returns: a string,
    the missing value [NaN] of an empty field, or a number of a column that
    pandas found to be numeric. *)
Inductive pyval : Type :=
| PStr (s : string)
| PNaN
| PNum (z : Z).

(** Modelled from the spec: [Annotation.set_property_values], the
    "property-value-set mutation" of the [Annotation] collaborator, which is
    not part of this module.  A call is recorded with the annotation it is
    applied to and the arguments it receives. *)
Record SetCall : Type := mkSetCall {
  call_target : Annotation;
  call_tag : pyval;
  call_prop : pyval;
  call_value : list string
}.

Record ImportState : Type := mkImportState {
  set_calls : list SetCall;
  annotation_counter : nat;
  missed_annotation_counter : nat
}.

(** [an_dict[key]]: only a string can be a key of the dict. *)
Definition an_dict_item (an_dict : dict Annotation) (key : pyval)
  : exc Annotation :=
  match key with
  | PStr s => dict_item an_dict s
  | _ => Raise KeyError
  end.

(** The body of the [try] statement: [Some] call when the values cell is a
    string, [None] otherwise. *)
Definition import_try (an_dict : dict Annotation) (row : dict pyval)
  : exc (option SetCall) :=
  values <- dict_item row "values" ;;
  match values with
  | PStr _ =>
      id <- dict_item row "id" ;;
      an <- an_dict_item an_dict id ;;
      tag_v <- dict_item row "tag" ;;
      prop_v <- dict_item row "property" ;;
      values' <- dict_item row "values" ;;
      match values' with
      | PStr s => Ok (Some (mkSetCall an tag_v prop_v (str_split comma s)))
      | _ => Raise AttributeError
      end
  | _ => Ok None
  end.

(** One turn of the loop over the rows. *)
Definition import_row (an_dict : dict Annotation) (st : ImportState)
  (row : dict pyval) : exc ImportState :=
  match import_try an_dict row with
  | Ok (Some c) =>
      Ok (mkImportState (set_calls st ++ [c]) (S (annotation_counter st))
            (missed_annotation_counter st))
  | Ok None =>
      Ok (mkImportState (set_calls st) (annotation_counter st)
            (S (missed_annotation_counter st)))
  | Raise KeyError =>
      Ok (mkImportState (set_calls st) (annotation_counter st)
            (S (missed_annotation_counter st)))
  | Raise e => Raise e
  end.

Fixpoint import_rows (an_dict : dict Annotation) (st : ImportState)
  (rows : list (dict pyval)) : exc ImportState :=
  match rows with
  | [] => Ok st
  | row :: rows' =>
      st' <- import_row an_dict st row ;;
      import_rows an_dict st' rows'
  end.

(** [str(n)] of a counter. *)
Definition py_str_nat (n : nat) : string :=
  NilEmpty.string_of_uint (Nat.to_uint n).

(** What a caller of [read_annotation_csv] can observe: the mutations
    applied to the annotations, the git commands run, and the lines
    printed.  The method itself returns [None]. *)
Record ImportOutcome : Type := mkImportOutcome {
  out_calls : list SetCall;
  out_commands : list (list string);
  out_printed : list string
}.

(** The loop of [read_annotation_csv] over the table read from the file. *)
Definition import_loop (self : AnnotationCollection)
  (annotation_table : list (dict pyval)) : exc ImportState :=
  import_rows (annotation_dict self) (mkImportState [] 0 0) annotation_table.

Definition read_annotation_csv (self : AnnotationCollection)
  (annotation_table : list (dict pyval)) (push_to_gitlab : bool)
  : exc ImportOutcome :=
  st <- import_loop self annotation_table ;;
  let commands :=
    if push_to_gitlab
    then [ ["git"; "add"; "."];
           ["git"; "commit"; "-m"; "new property annotations"];
           ["git"; "push"; "origin"; "HEAD:master"] ]
    else [] in
  let printed :=
    ("Updated values for " ++ py_str_nat (annotation_counter st)
     ++ " annotations.")%string
    :: (if negb push_to_gitlab
        then [("Your annotations are stored in " ++ ac_directory self)%string]
        else []) in
  Ok (mkImportOutcome (set_calls st) commands printed).

(** ** __len__, to_list, to_pygamma_table *)

(** [len(self)]. *)
Definition len (self : AnnotationCollection) : nat :=
  length (ac_annotations self).

(** Equality of the cells that can be hashed: strings and integers. *)
Definition cell_eqb (a b : cell) : bool :=
  match a, b with
  | CStr s, CStr t => String.eqb s t
  | CInt x, CInt y => Z.eqb x y
  | _, _ => false
  end.

Definition cell_hashable (c : cell) : bool :=
  match c with
  | CStr _ | CInt _ => true
  | CDict _ | CList _ => false
  end.

Fixpoint unique_cells (col : list cell) : list cell :=
  match col with
  | [] => []
  | c :: l => c :: filter (fun d => negb (cell_eqb d c)) (unique_cells l)
  end.

(** [series.unique()]: the distinct values in the order in which they
    appear; a dict or a list in the column cannot be hashed. *)
Definition series_unique (col : list cell) : exc (list cell) :=
  if forallb cell_hashable col then Ok (unique_cells col)
  else Raise TypeError.

(** [self.df.<label>]: the column as an attribute of the table. *)
Definition df_attr (df : DataFrame) (label : string) : exc (list cell) :=
  match df_get df label with
  | Raise KeyError => Raise AttributeError
  | r => r
  end.

Section ToList.

(** [Annotation.to_dict] of the [Annotation] collaborator: the plain
    projection of an annotation. *)
Variable D : Type.
Variable to_dict : Annotation -> D.

(** [to_list]: [tags] is [None] or a list of tag names; [if not tags:]
    holds for [None] and for the empty list. *)
Definition to_list (self : AnnotationCollection) (tags : option (list string))
  : exc (list D) :=
  tags <- match tags with
          | Some (t :: ts) => Ok (map CStr (t :: ts))
          | _ => col <- df_attr (ac_df self) "tag" ;; series_unique col
          end ;;
  Ok (map to_dict
        (filter (fun an => existsb (cell_eqb (CStr (tag_name (tag an)))) tags)
           (ac_annotations self))).

End ToList.

(** [df[labels]] for a list of labels: the columns of these labels, in the
    order of the list. *)
Definition df_columns_subset (df : DataFrame) (labels : list string)
  : exc DataFrame :=
  cols <- mapM (fun label => col <- df_get df label ;; Ok (label, col))
            labels ;;
  Ok (mkDF (n_rows df) cols).

(** [to_pygamma_table]. *)
Definition to_pygamma_table (self : AnnotationCollection) : exc DataFrame :=
  df_columns_subset (ac_df self)
    ["annotator"; "tag"; "start_point"; "end_point"].

(** ** Examples used below *)

Definition example_tag : Tag :=
  MkTag "Hero" "Plot>Character>Hero" (Some (MkTag "Character" "Plot>Character" None)).

Definition example_root_tag : Tag := MkTag "Setting" "Plot>Setting" None.

Definition example_annotation (id : string) (t : Tag) (props : properties_t)
  (start : Z) : Annotation :=
  mkAnnotation id "annotator" t props "before " "some text" " after"
    start (start + 9) "2024-01-01".

Definition example_project : CatmaProject := mkProject "P" "/projects/".

(** A world with a header for the collection [C], and the given annotations
    when [with_annotations] holds. *)
Definition example_world (annotations : option (list Annotation)) : World :=
  mkWorld
    (fun path =>
       if String.eqb path "P/collections/C/header.json"
       then Ok [("name", "Collection"); ("sourceDocumentId", "D")]
       else Raise (FileNotFoundError path))
    (fun _ _ => Ok (mkText "Title" "some text"))
    (fun path =>
       match annotations with
       | Some _ => String.eqb path "P/collections/C/annotations/"
       | None => false
       end)
    (fun _ _ => Ok (match annotations with Some l => l | None => [] end))
    (fun a b => Z.ltb (start_point a) (start_point b)).

(** A world whose header file for the collection [C] holds [header], and
    nothing else. *)
Definition example_world_with_header (header : dict string) : World :=
  mkWorld
    (fun path =>
       if String.eqb path "P/collections/C/header.json"
       then Ok header
       else Raise (FileNotFoundError path))
    (fun _ _ => Ok (mkText "Title" "some text"))
    (fun _ => false)
    (fun _ _ => Ok [])
    (fun a b => Z.ltb (start_point a) (start_point b)).

(** The collection of an example world, or a raised exception. *)
Definition example_collection (annotations : option (list Annotation))
  (id : string) : exc AnnotationCollection :=
  init (example_world annotations) id example_project 50.

(** Three annotations: two under the tag [Hero], whose parent is
    [Character], and one under the root tag [Setting]. *)
Definition example_annotations : list Annotation :=
  [ example_annotation "U1" example_tag
      [("color", ["red"; "blue"]); ("size", [])] 0;
    example_annotation "U2" example_root_tag [("mood", ["a,b"])] 20;
    example_annotation "U3" example_tag [("size", ["big"])] 10 ].

(** ** The CSV import in the words of the specification *)

(** The values cell of the row is a string: "property values are
    defined". *)
Definition values_is_string (row : dict pyval) : bool :=
  match dict_get row "values" with
  | Some (PStr _) => true
  | _ => false
  end.

(** The id cell of the row is the UUID of an annotation of the
    collection. *)
Definition id_is_known (an_dict : dict Annotation) (row : dict pyval) : bool :=
  match dict_get row "id" with
  | Some (PStr i) => dict_mem i an_dict
  | _ => false
  end.

(** The rows that lead to a call of [set_property_values]. *)
Definition row_updates (an_dict : dict Annotation) (row : dict pyval) : bool :=
  values_is_string row && id_is_known an_dict row
  && dict_mem "tag" row && dict_mem "property" row.

(** The call a row leads to: on the annotation of that id, with the tag
    cell, the property cell and the values cell split at the commas. *)
Definition row_call (an_dict : dict Annotation) (row : dict pyval)
  : option SetCall :=
  match dict_get row "values", dict_get row "id",
        dict_get row "tag", dict_get row "property" with
  | Some (PStr s), Some (PStr i), Some t, Some p =>
      match dict_get an_dict i with
      | Some an => Some (mkSetCall an t p (str_split comma s))
      | None => None
      end
  | _, _, _, _ => None
  end.

Definition row_calls (an_dict : dict Annotation) (row : dict pyval)
  : list SetCall :=
  match row_call an_dict row with
  | Some c => [c]
  | None => []
  end.

(** The row that [write_annotation_csv] writes for a property of an
    annotation when all values are asked for. *)
Definition export_row (self : AnnotationCollection) (an : Annotation)
  (prop : string) : dict string :=
  [ ("id", uuid an);
    ("annotation_collection", ac_name self);
    ("text", clean_text_in_ac_df (text an));
    ("tag", tag_name (tag an));
    ("property", prop);
    ("values", str_join "," (item_value (properties an) prop)) ].

(** The selection of [write_annotation_csv] covers the property [prop] of
    the annotation [an]. *)
Definition exports (self : AnnotationCollection) (tags : tags_arg)
  (property : string) (an : Annotation) (prop : string) : bool :=
  (tags_is_all tags || tags_contains tags (tag_name (tag an)))
  && key_in prop (if String.eqb property "all" then prop_cols (ac_df self)
                  else [property]).

(** A table in which a row with a known id has the number 5 as its
    values: the values column of the file held numbers only. *)
Definition example_numeric_table : list (dict pyval) :=
  [ [ ("id", PStr "U1"); ("annotation_collection", PStr "Collection");
      ("text", PStr "some text"); ("tag", PStr "Hero");
      ("property", PStr "size"); ("values", PNum 5) ] ].

(** A table without a column [tag]. *)
Definition example_untagged_table : list (dict pyval) :=
  [ [ ("id", PStr "U1"); ("property", PStr "size"); ("values", PStr "big") ] ].

(** The collection [C] of the example world with the given annotations. *)
Definition example_ac_of (annotations : list Annotation)
  : AnnotationCollection :=
  match example_collection (Some annotations) "C" with
  | Ok c => c
  | Raise _ =>
      mkAC "C" "/projects/" "P" "P/collections/C/" [] "" "" (mkText "" "")
        None [] None (DataFrame_empty df_columns)
  end.

(** The collection of the three example annotations. *)
Definition example_ac : AnnotationCollection :=
  example_ac_of example_annotations.

(** A collection whose only property value is the text 5. *)
Definition example_numeric_annotations : list Annotation :=
  [ example_annotation "U5" example_tag [("size", ["5"])] 0 ].

Definition example_numeric_ac : AnnotationCollection :=
  example_ac_of example_numeric_annotations.

(** ** The file read back *)

(** The cell of the label [label] in the row [row] of the table that
    [pd.read_csv] returns is the string of that field in the record
    [written]. *)
Definition cell_reads (written : dict string) (row : dict pyval)
  (label : string) : bool :=
  match dict_get written label, dict_get row label with
  | Some s, Some (PStr t) => String.eqb s t
  | _, _ => false
  end.

(** The row [row] of the table gives the record [written] of the file
    back: its id, tag, property and values cells are the strings
    written. *)
Definition read_as_written (written : dict string) (row : dict pyval) : bool :=
  forallb (cell_reads written row) ["id"; "tag"; "property"; "values"].

(** The number of occurrences of a character. *)
Fixpoint count_char (c : ascii) (s : string) : nat :=
  match s with
  | EmptyString => 0
  | String d s' => (if Ascii.eqb d c then 1 else 0) + count_char c s'
  end.

(** The table that pandas reads from the file written for the three example
    annotations with all tags and all properties: the empty values field of
    the second record is read as [NaN], every other field as the string
    written. *)
Definition example_file_table : list (dict pyval) :=
  [ [ ("id", PStr "U1"); ("annotation_collection", PStr "Collection");
      ("text", PStr "some text"); ("tag", PStr "Hero");
      ("property", PStr "color"); ("values", PStr "red,blue") ];
    [ ("id", PStr "U1"); ("annotation_collection", PStr "Collection");
      ("text", PStr "some text"); ("tag", PStr "Hero");
      ("property", PStr "size"); ("values", PNaN) ];
    [ ("id", PStr "U3"); ("annotation_collection", PStr "Collection");
      ("text", PStr "some text"); ("tag", PStr "Hero");
      ("property", PStr "size"); ("values", PStr "big") ];
    [ ("id", PStr "U2"); ("annotation_collection", PStr "Collection");
      ("text", PStr "some text"); ("tag", PStr "Setting");
      ("property", PStr "mood"); ("values", PStr "a,b") ] ].

(** The table that pandas reads from the file written for the collection
    whose only value is the text 5: the values column holds one field, a
    number, and pandas gives the column a numeric type. *)
Definition example_numeric_file_table : list (dict pyval) :=
  [ [ ("id", PStr "U5"); ("annotation_collection", PStr "Collection");
      ("text", PStr "some text"); ("tag", PStr "Hero");
      ("property", PStr "size"); ("values", PNum 5) ] ].


(** ** Tag names in the words of the specification *)

(** The tag of the annotation, or the parent of that tag, has the name. *)
Definition named_or_child_of (tag_name_arg : string) (a : Annotation) : bool :=
  String.eqb (tag_name (tag a)) tag_name_arg
  || match tag_parent (tag a) with
     | Some p => String.eqb (tag_name p) tag_name_arg
     | None => false
     end.

(** The name of the parent is read only for a tag of another name: such a
    tag needs a parent. *)
Definition parent_readable (tag_name_arg : string) (a : Annotation) : bool :=
  String.eqb (tag_name (tag a)) tag_name_arg
  || match tag_parent (tag a) with
     | Some _ => true
     | None => false
     end.

(** ** The table in the words of the specification *)

(** The value-sequence of property [k] in one annotation: its values, or
    the one-element missing marker. *)
Definition prop_or_nan (k : string) (item : properties_t) : list string :=
  match dict_get item k with
  | Some v => v
  | None => nan_marker
  end.

(** The property names in the order in which the annotations show them. *)
Definition seen_from (seen : list string) (items : list properties_t)
  : list string :=
  fold_left
    (fun seen item =>
       seen ++ filter (fun k => negb (key_in k seen)) (dict_keys item))
    items seen.

Definition seen_keys (items : list properties_t) : list string :=
  seen_from [] items.

(** The fixed columns of the table of [annotations], one row per
    annotation in the order of the list. *)
Definition fixed_columns (text_title ac_name_arg : string)
  (annotations : list Annotation) : dict (list cell) :=
  [ ("document", map (fun _ => CStr text_title) annotations);
    ("annotation collection", map (fun _ => CStr ac_name_arg) annotations);
    ("annotator", map (fun a => CStr (author a)) annotations);
    ("tag", map (fun a => CStr (tag_name (tag a))) annotations);
    ("tag_path", map (fun a => CStr (tag_full_path (tag a))) annotations);
    ("left_context",
     map (fun a => CStr (clean_text_in_ac_df (pretext a))) annotations);
    ("annotation",
     map (fun a => CStr (clean_text_in_ac_df (text a))) annotations);
    ("right_context",
     map (fun a => CStr (clean_text_in_ac_df (posttext a))) annotations);
    ("start_point", map (fun a => CInt (start_point a)) annotations);
    ("end_point", map (fun a => CInt (end_point a)) annotations);
    ("date", map (fun a => CStr (date a)) annotations) ].

(** The column of property [k]: one value-sequence per annotation. *)
Definition property_column (annotations : list Annotation) (k : string)
  : string * list cell :=
  (("prop:" ++ k)%string,
   map (fun a => CList (prop_or_nan k (properties a))) annotations).

(** ** Further notions used in the statements *)

(** The text has two spaces in a row. *)
Definition has_double_space (s : string) : bool := str_in "  " s.

(** A cell with a text that has no line break and no two spaces in a
    row. *)
Definition clean_cell (c : cell) : Prop :=
  exists s, c = CStr s /\ char_in newline s = false
            /\ has_double_space s = false.

(** The characters that [clean_text_in_ac_df] may merge or replace. *)
Definition blanks : string := String space (String newline "").

(** The row that [write_annotation_csv] writes for a property without
    values when only the missing values are asked for. *)
Definition missing_row (self : AnnotationCollection) (an : Annotation)
  (prop : string) : dict string :=
  [ ("id", uuid an);
    ("annotation_collection", ac_name self);
    ("tag", tag_name (tag an));
    ("text", clean_text_in_ac_df (text an));
    ("property", prop);
    ("values", "") ].

(** The table of the collection is the one its annotations give: the state
    in which the constructor leaves a collection. *)
Definition table_in_sync (self : AnnotationCollection) : Prop :=
  ac_to_df (ac_annotations self) (title (ac_text self)) (ac_name self)
  = Ok (ac_df self)
  \/ (ac_annotations self = [] /\ ac_df self = DataFrame_empty df_columns).

(** The last element of a list that satisfies a test. *)
Definition find_last {A} (f : A -> bool) (l : list A) : option A :=
  find f (rev l).

(** The dictionary of the columns after the annotations [items], for the
    property names [ks]. *)
Definition table_of (ks : list string) (items : list properties_t)
  : PropertiesDict :=
  map (fun k => (k, map (prop_or_nan k) items)) ks.

(** The entry of a known property after the first inner loop over the keys
    [ks] of [item]. *)
Definition entry_after_keys (item : properties_t) (ks : list string)
  (e : string * list (list string)) : string * list (list string) :=
  if key_in (fst e) ks then (fst e, snd e ++ [item_value item (fst e)]) else e.

(** The order of a stable sort by descending count of a list in which [p]
    stands before [q] when [earlier p q]. *)
Definition ranked (earlier : string * nat -> string * nat -> Prop)
  (p q : string * nat) : Prop :=
  snd q < snd p \/ (snd p = snd q /\ earlier p q).

(** * Properties *)

(** ** Dictionaries *)

Lemma key_in_true (k : string) (ks : list string) :
  key_in k ks = true <-> In k ks.
Proof.
  unfold key_in. rewrite existsb_exists. split.
  - intros [x [Hin Heq]]. apply String.eqb_eq in Heq. subst. exact Hin.
  - intros Hin. exists k. split; [exact Hin | apply String.eqb_refl].
Qed.

Lemma key_in_false (k : string) (ks : list string) :
  key_in k ks = false <-> ~ In k ks.
Proof.
  rewrite <- key_in_true. destruct (key_in k ks); split; intros H;
    try reflexivity; try discriminate; try (intros H'; discriminate).
  exfalso. apply H. reflexivity.
Qed.

Lemma key_in_app (k : string) (l1 l2 : list string) :
  key_in k (l1 ++ l2) = key_in k l1 || key_in k l2.
Proof. unfold key_in. apply existsb_app. Qed.

Lemma dict_get_none {V} (d : dict V) (k : string) :
  dict_get d k = None <-> dict_mem k d = false.
Proof.
  unfold dict_mem, dict_keys, key_in.
  induction d as [|[k' v] d IH]; simpl.
  - tauto.
  - destruct (String.eqb k k'); simpl.
    + split; discriminate.
    + exact IH.
Qed.

Lemma dict_get_some_mem {V} (d : dict V) (k : string) (v : V) :
  dict_get d k = Some v -> dict_mem k d = true.
Proof.
  intros H. destruct (dict_mem k d) eqn:E; [reflexivity|].
  apply dict_get_none in E. congruence.
Qed.

Lemma dict_get_in {V} (d : dict V) (k : string) (v : V) :
  dict_get d k = Some v -> In (k, v) d.
Proof.
  induction d as [|[k' v'] d IH]; simpl; [discriminate|].
  destruct (String.eqb k k') eqn:E.
  - apply String.eqb_eq in E. intros H. inversion H. subst. now left.
  - intros H. right. now apply IH.
Qed.

Lemma in_dict_get {V} (d : dict V) (k : string) (v : V) :
  dict_wf d -> In (k, v) d -> dict_get d k = Some v.
Proof.
  unfold dict_wf, dict_keys.
  induction d as [|[k' v'] d IH]; simpl; [tauto|].
  intros Hnd [Heq | Hin].
  - inversion Heq. subst. now rewrite String.eqb_refl.
  - inversion Hnd as [|? ? Hnotin Hnd']. subst.
    destruct (String.eqb k k') eqn:E.
    + apply String.eqb_eq in E. subst. exfalso. apply Hnotin.
      apply in_map_iff. now exists (k', v).
    + now apply IH.
Qed.

Lemma dict_set_absent {V} (d : dict V) (k : string) (v : V) :
  dict_mem k d = false -> dict_set d k v = d ++ [(k, v)].
Proof.
  unfold dict_mem, dict_keys, key_in.
  induction d as [|[k' v'] d IH]; simpl; [reflexivity|].
  destruct (String.eqb k k'); simpl; [discriminate|].
  intros H. now rewrite IH.
Qed.

Lemma dict_mem_app {V} (k : string) (d1 d2 : dict V) :
  dict_mem k (d1 ++ d2) = dict_mem k d1 || dict_mem k d2.
Proof. unfold dict_mem, dict_keys. rewrite map_app. apply key_in_app. Qed.

Lemma map_fix {A} (f : A -> A) (l : list A) :
  (forall x, In x l -> f x = x) -> map f l = l.
Proof.
  induction l as [|x l IH]; simpl; intros H; [reflexivity|].
  rewrite H by now left. f_equal. apply IH. intros y Hy. apply H. now right.
Qed.

Lemma filter_twice {A} (f g : A -> bool) (l : list A) :
  filter f (filter g l) = filter (fun x => f x && g x) l.
Proof.
  induction l as [|x l IH]; simpl; [reflexivity|].
  destruct (g x); simpl.
  - rewrite andb_true_r. destruct (f x); now rewrite IH.
  - now rewrite andb_false_r.
Qed.

Lemma NoDup_snoc {A} (l : list A) (x : A) :
  NoDup l -> ~ In x l -> NoDup (l ++ [x]).
Proof.
  intros Hl Hx. apply NoDup_app; [exact Hl | repeat constructor; intros [] | ].
  intros y Hy [Heq | []]. subst. now apply Hx.
Qed.

(** ** The exception monad *)

Lemma mapM_ok {A B} (f : A -> exc B) (g : A -> B) (l : list A) :
  (forall a, In a l -> f a = Ok (g a)) -> mapM f l = Ok (map g l).
Proof.
  induction l as [|a l IH]; simpl; intros H; [reflexivity|].
  rewrite (H a) by now left. simpl.
  rewrite IH by (intros; apply H; now right). reflexivity.
Qed.

(** ** split_property_dict_to_column *)

Lemma table_of_keys (ks : list string) (items : list properties_t) :
  dict_keys (table_of ks items) = ks.
Proof.
  unfold dict_keys, table_of. rewrite map_map. simpl. apply map_id.
Qed.

Lemma pd_append_keys (pd : PropertiesDict) (k : string) (v : list string) :
  dict_keys (pd_append pd k v) = dict_keys pd.
Proof.
  induction pd as [|[k' col] pd IH]; simpl; [reflexivity|].
  destruct (String.eqb k k'); simpl; [reflexivity|]. now rewrite IH.
Qed.

Lemma pd_append_map (pd : PropertiesDict) (k : string) (v : list string) :
  NoDup (dict_keys pd) ->
  pd_append pd k v =
  map (fun e => if String.eqb (fst e) k then (fst e, snd e ++ [v]) else e) pd.
Proof.
  induction pd as [|[k' col] pd IH]; simpl; intros Hnd; [reflexivity|].
  inversion Hnd as [|? ? Hnotin Hnd']. subst.
  rewrite (String.eqb_sym k' k).
  destruct (String.eqb k k') eqn:E.
  - f_equal. apply String.eqb_eq in E. subst.
    symmetry. apply map_fix. intros [k2 c2] Hin. simpl.
    destruct (String.eqb k2 k') eqn:E2; [|reflexivity].
    apply String.eqb_eq in E2. subst. exfalso. apply Hnotin.
    apply in_map_iff. now exists (k', c2).
  - f_equal. now apply IH.
Qed.

Lemma add_keys_fold (index : nat) (item : properties_t) (ks : list string) :
  NoDup ks ->
  forall pd : PropertiesDict,
    NoDup (dict_keys pd) ->
    fold_left
      (fun pd key =>
         if negb (dict_mem key pd)
         then dict_set pd key (repeat nan_marker index ++ [item_value item key])
         else pd_append pd key (item_value item key))
      ks pd
    = map (entry_after_keys item ks) pd
      ++ map (fun k => (k, repeat nan_marker index ++ [item_value item k]))
           (filter (fun k => negb (dict_mem k pd)) ks).
Proof.
  induction ks as [|k ks IH]; intros Hks pd Hpd; simpl.
  - rewrite app_nil_r. symmetry. apply map_fix. intros e _. reflexivity.
  - inversion Hks as [|? ? Hk Hks']. subst.
    destruct (dict_mem k pd) eqn:Emem; simpl.
    + rewrite IH; [|exact Hks'|now rewrite pd_append_keys].
      rewrite pd_append_map by exact Hpd. rewrite map_map. f_equal.
      * apply map_ext. intros [k2 c2]. unfold entry_after_keys. simpl.
        destruct (String.eqb k2 k) eqn:E2; simpl.
        -- apply String.eqb_eq in E2. subst.
           apply key_in_false in Hk. fold (key_in k ks). now rewrite Hk.
        -- reflexivity.
      * f_equal. apply filter_ext. intros k2. unfold dict_mem.
        rewrite <- pd_append_map by exact Hpd.
        now rewrite pd_append_keys.
    + rewrite dict_set_absent by exact Emem.
      rewrite IH; [|exact Hks'|].
      * rewrite map_app. simpl. rewrite <- app_assoc. simpl. f_equal.
        -- apply map_ext_in. intros [k2 c2] Hin.
           unfold entry_after_keys. simpl.
           destruct (String.eqb k2 k) eqn:E2; [|reflexivity].
           apply String.eqb_eq in E2. subst. exfalso.
           apply key_in_false in Emem. apply Emem.
           apply in_map_iff. now exists (k, c2).
        -- unfold entry_after_keys at 1. simpl.
           assert (Hkf : key_in k ks = false) by now apply key_in_false.
           fold (key_in k ks). rewrite Hkf.
           f_equal. f_equal. apply filter_ext_in. intros k2 Hin.
           rewrite dict_mem_app. unfold dict_mem at 2. simpl.
           destruct (String.eqb k2 k) eqn:E2.
           ++ apply String.eqb_eq in E2. subst. now apply Hk in Hin.
           ++ now rewrite orb_false_r.
      * unfold dict_keys. rewrite map_app. simpl.
        apply NoDup_snoc; [exact Hpd|]. now apply key_in_false in Emem.
Qed.

Lemma item_value_prop_or_nan (item : properties_t) (k : string) :
  dict_mem k item = true -> item_value item k = prop_or_nan k item.
Proof.
  unfold item_value, prop_or_nan. intros H.
  destruct (dict_get item k) eqn:E; [reflexivity|].
  apply dict_get_none in E. congruence.
Qed.

Lemma prop_or_nan_absent (item : properties_t) (k : string) :
  dict_mem k item = false -> prop_or_nan k item = nan_marker.
Proof.
  unfold prop_or_nan. intros H. apply dict_get_none in H. now rewrite H.
Qed.

(** One turn of the outer loop: every known column gains the value of the
    item or the marker; every new property gets a column of markers followed
    by its value. *)
Lemma collect_step (index : nat) (item : properties_t) (pd : PropertiesDict) :
  dict_wf item -> NoDup (dict_keys pd) ->
  pad_missing item (add_item_keys index item pd)
  = map (fun e => (fst e, snd e ++ [prop_or_nan (fst e) item])) pd
    ++ map (fun k => (k, repeat nan_marker index ++ [prop_or_nan k item]))
         (filter (fun k => negb (dict_mem k pd)) (dict_keys item)).
Proof.
  intros Hitem Hpd. unfold add_item_keys.
  rewrite add_keys_fold by assumption.
  unfold pad_missing. rewrite map_app, !map_map. f_equal.
  - apply map_ext. intros [k col]. unfold entry_after_keys. simpl.
    fold (dict_mem k item).
    destruct (dict_mem k item) eqn:E; simpl.
    + rewrite E. simpl. now rewrite item_value_prop_or_nan.
    + rewrite E. simpl. now rewrite prop_or_nan_absent.
  - apply map_ext_in. intros k Hin. simpl.
    apply filter_In in Hin. destruct Hin as [Hin _].
    assert (E : dict_mem k item = true) by now apply key_in_true.
    rewrite E. simpl. now rewrite item_value_prop_or_nan.
Qed.

Lemma prop_or_nan_unseen (k : string) (items : list properties_t) :
  (forall item, In item items -> ~ In k (dict_keys item)) ->
  map (prop_or_nan k) items = repeat nan_marker (length items).
Proof.
  induction items as [|item items IH]; simpl; intros H; [reflexivity|].
  rewrite prop_or_nan_absent.
  - f_equal. apply IH. intros it Hit. apply H. now right.
  - apply key_in_false. apply H. now left.
Qed.

Lemma NoDup_filter {A} (f : A -> bool) (l : list A) :
  NoDup l -> NoDup (filter f l).
Proof.
  induction 1 as [|x l Hx Hl IH]; simpl; [constructor|].
  destruct (f x); [|exact IH]. constructor; [|exact IH].
  intros Hin. apply filter_In in Hin. now apply Hx.
Qed.

Lemma NoDup_extend (seen ks : list string) :
  NoDup seen -> NoDup ks ->
  NoDup (seen ++ filter (fun k => negb (key_in k seen)) ks).
Proof.
  intros Hs Hk. apply NoDup_app; [exact Hs | now apply NoDup_filter |].
  intros x Hx Hin. apply filter_In in Hin. destruct Hin as [_ Hneg].
  apply key_in_true in Hx. rewrite Hx in Hneg. discriminate.
Qed.

Lemma in_extend (seen ks : list string) (k : string) :
  In k (seen ++ filter (fun k => negb (key_in k seen)) ks)
  <-> In k seen \/ In k ks.
Proof.
  rewrite in_app_iff, filter_In. split.
  - intros [H | [H _]]; [now left | now right].
  - intros [H | H]; [now left|].
    destruct (key_in k seen) eqn:E.
    + left. now apply key_in_true.
    + right. split; [exact H | reflexivity].
Qed.

(** The outer loop, started after [processed] with the table of the keys
    [ks] seen so far. *)
Lemma collect_properties_spec (rest : list properties_t) :
  forall (processed : list properties_t) (ks : list string),
    NoDup ks ->
    (forall item k, In item processed -> In k (dict_keys item) -> In k ks) ->
    Forall dict_wf rest ->
    collect_properties (length processed) rest (table_of ks processed)
    = table_of (seen_from ks rest) (processed ++ rest).
Proof.
  induction rest as [|item rest IH]; intros processed ks Hks Hcov Hwf; simpl.
  - now rewrite app_nil_r.
  - inversion Hwf as [|? ? Hitem Hrest]. subst.
    rewrite collect_step; [|exact Hitem|now rewrite table_of_keys].
    set (ks' := ks ++ filter (fun k => negb (key_in k ks)) (dict_keys item)).
    assert (Hstep :
      map (fun e => (fst e, snd e ++ [prop_or_nan (fst e) item]))
          (table_of ks processed)
      ++ map (fun k => (k, repeat nan_marker (length processed)
                           ++ [prop_or_nan k item]))
           (filter (fun k => negb (dict_mem k (table_of ks processed)))
                   (dict_keys item))
      = table_of ks' (processed ++ [item])).
    { unfold ks', table_of. rewrite map_app, map_map. f_equal.
      - apply map_ext. intros k. simpl. now rewrite map_app.
      - unfold dict_mem. fold (table_of ks processed).
        rewrite table_of_keys.
        apply map_ext_in. intros k Hin. rewrite map_app. simpl.
        apply filter_In in Hin. destruct Hin as [_ Hneg].
        rewrite prop_or_nan_unseen; [reflexivity|].
        intros it Hit Hk. apply (Hcov it k Hit) in Hk.
        apply key_in_true in Hk. rewrite Hk in Hneg. discriminate. }
    rewrite Hstep.
    replace (S (length processed)) with (length (processed ++ [item]))
      by (rewrite length_app; simpl; lia).
    rewrite IH.
    + now rewrite <- app_assoc.
    + apply NoDup_extend; [exact Hks | exact Hitem].
    + intros it k Hit Hk. apply in_extend.
      apply in_app_iff in Hit. destruct Hit as [Hit | [Heq | []]].
      * left. now apply (Hcov it).
      * subst. now right.
    + exact Hrest.
Qed.

Lemma collect_properties_all (items : list properties_t) :
  Forall dict_wf items ->
  collect_properties 0 items [] = table_of (seen_keys items) items.
Proof.
  intros Hwf.
  apply (collect_properties_spec items [] []);
    [constructor | intros ? ? [] | exact Hwf].
Qed.

Lemma seen_from_NoDup (items : list properties_t) :
  forall seen, NoDup seen -> Forall dict_wf items ->
               NoDup (seen_from seen items).
Proof.
  induction items as [|item items IH]; intros seen Hs Hwf; simpl; [exact Hs|].
  inversion Hwf. subst. apply IH; [|assumption].
  now apply NoDup_extend.
Qed.

Lemma seen_from_In (items : list properties_t) (k : string) :
  forall seen,
    In k (seen_from seen items)
    <-> In k seen \/ exists item, In item items /\ In k (dict_keys item).
Proof.
  induction items as [|item items IH]; intros seen; simpl.
  - split; [now left | intros [H | [it [[] _]]]; exact H].
  - rewrite IH, in_extend. split.
    + intros [[H | H] | [it [Hit Hk]]].
      * now left.
      * right. exists item. split; [now left | exact H].
      * right. exists it. split; [now right | exact Hk].
    + intros [H | [it [[Heq | Hit] Hk]]].
      * left. now left.
      * subst. left. now right.
      * right. now exists it.
Qed.

Lemma prop_label_eqb (k1 k2 : string) :
  String.eqb ("prop:" ++ k1) ("prop:" ++ k2) = String.eqb k1 k2.
Proof. reflexivity. Qed.

(** The last loop appends one column per property when the lengths agree
    and no label is taken. *)
Lemma assign_property_columns_ok (pd : PropertiesDict) :
  forall df : DataFrame,
    (forall k col, In (k, col) pd -> length col = n_rows df) ->
    NoDup (dict_keys pd) ->
    (forall k, In k (dict_keys pd) ->
               dict_mem ("prop:" ++ k) (columns df) = false) ->
    assign_property_columns df pd
    = Ok (mkDF (n_rows df)
            (columns df
             ++ map (fun e => (("prop:" ++ fst e)%string, map CList (snd e)))
                  pd)).
Proof.
  induction pd as [|[k col] pd IH]; intros df Hlen Hnd Hfree; simpl.
  - rewrite app_nil_r. now destruct df.
  - inversion Hnd as [|? ? Hk Hnd']. subst.
    unfold df_set. rewrite length_map, (Hlen k col) by now left.
    rewrite Nat.eqb_refl. simpl.
    rewrite dict_set_absent by (apply Hfree; now left).
    rewrite IH.
    + simpl. now rewrite <- app_assoc.
    + intros k' col' Hin. apply (Hlen k' col'). now right.
    + exact Hnd'.
    + intros k' Hin. cbn [columns]. rewrite dict_mem_app.
      rewrite (Hfree k') by now right.
      unfold dict_mem. simpl.
      destruct (String.eqb k' k) eqn:E; [|reflexivity].
      apply String.eqb_eq in E. subst. now apply Hk in Hin.
Qed.

Lemma mapM_cell_dict {A} (f : A -> properties_t) (l : list A) :
  mapM cell_dict (map (fun a => CDict (f a)) l) = Ok (map f l).
Proof.
  induction l as [|a l IH]; simpl; [reflexivity|]. now rewrite IH.
Qed.

Lemma series_apply_str_map {A} (f : string -> string) (g : A -> string)
  (l : list A) :
  series_apply_str f (map (fun a => CStr (g a)) l)
  = Ok (map (fun a => CStr (f (g a))) l).
Proof.
  unfold series_apply_str.
  induction l as [|a l IH]; simpl; [reflexivity|]. now rewrite IH.
Qed.

Lemma table_of_lengths (ks : list string) (items : list properties_t)
  (k : string) (col : list (list string)) :
  In (k, col) (table_of ks items) -> length col = length items.
Proof.
  unfold table_of. intros H. apply in_map_iff in H.
  destruct H as [k' [Heq _]]. inversion Heq. apply length_map.
Qed.

Lemma drop_properties_dynamic (pd : PropertiesDict) :
  filter (fun kc : string * list cell => negb (String.eqb "properties" (fst kc)))
    (map (fun e => (("prop:" ++ fst e)%string, map CList (snd e))) pd)
  = map (fun e => (("prop:" ++ fst e)%string, map CList (snd e))) pd.
Proof.
  induction pd as [|e pd IH]; [reflexivity|].
  cbn [map filter fst]. rewrite IH. reflexivity.
Qed.

Lemma table_of_columns (annotations : list Annotation) (ks : list string) :
  map (fun e => (("prop:" ++ fst e)%string, map CList (snd e)))
    (table_of ks (map properties annotations))
  = map (property_column annotations) ks.
Proof.
  unfold table_of, property_column. rewrite map_map. apply map_ext.
  intros k. simpl. now rewrite !map_map.
Qed.

Lemma ac_to_df_value (annotations : list Annotation) (text_title name : string) :
  Forall annotation_wf annotations ->
  ac_to_df annotations text_title name
  = Ok (mkDF (length annotations)
          (fixed_columns text_title name annotations
           ++ map (property_column annotations)
                (seen_keys (map properties annotations)))).
Proof.
  intros Hwf.
  assert (Hitems : Forall dict_wf (map properties annotations)).
  { apply Forall_map. exact Hwf. }
  unfold ac_to_df, split_property_dict_to_column.
  unfold DataFrame_of_tuples, df_get. simpl.
  rewrite !map_map. simpl.
  rewrite mapM_cell_dict. simpl.
  rewrite collect_properties_all by exact Hitems.
  rewrite assign_property_columns_ok.
  - cbn [bind n_rows columns]. unfold df_drop. cbn [n_rows columns].
    rewrite dict_mem_app.
    match goal with
    | |- context [dict_mem "properties" ?l || _] =>
        replace (dict_mem "properties" l) with true by reflexivity
    end.
    cbn [orb]. rewrite filter_app, drop_properties_dynamic, table_of_columns.
    set (dyn := map (property_column annotations)
                  (seen_keys (map properties annotations))).
    cbn [bind filter fst negb String.eqb Ascii.eqb Bool.eqb app].
    clearbody dyn. rewrite length_map.
    do 3 (unfold clean_column at 1; unfold df_get, dict_item;
          cbn [columns n_rows dict_get String.eqb Ascii.eqb Bool.eqb bind];
          rewrite series_apply_str_map; cbn [bind];
          unfold df_set; cbn [n_rows columns];
          rewrite length_map, Nat.eqb_refl;
          cbn [bind dict_set String.eqb Ascii.eqb Bool.eqb]).
    reflexivity.
  - intros k col Hin. cbn [n_rows]. rewrite length_map.
    apply table_of_lengths in Hin. now rewrite length_map in Hin.
  - rewrite table_of_keys. apply seen_from_NoDup; [constructor | exact Hitems].
  - intros k _. reflexivity.
Qed.

Lemma fixed_columns_not_prop (text_title name : string)
  (annotations : list Annotation) (label : string) (col : list cell) :
  In (label, col) (fixed_columns text_title name annotations) ->
  starts_with "prop:" label = false.
Proof.
  unfold fixed_columns. simpl.
  intros H.
  repeat (destruct H as [H | H]; [inversion H; reflexivity|]).
  destruct H.
Qed.

Lemma fixed_columns_lengths (text_title name : string)
  (annotations : list Annotation) (label : string) (col : list cell) :
  In (label, col) (fixed_columns text_title name annotations) ->
  length col = length annotations.
Proof.
  unfold fixed_columns. simpl.
  intros H.
  repeat (destruct H as [H | H]; [inversion H; apply length_map|]).
  destruct H.
Qed.

Lemma prop_label_inj (k1 k2 : string) :
  ("prop:" ++ k1)%string = ("prop:" ++ k2)%string -> k1 = k2.
Proof. intros H. now inversion H. Qed.

Lemma example_annotations_wf : Forall annotation_wf example_annotations.
Proof.
  unfold example_annotations, annotation_wf, dict_wf, dict_keys.
  repeat constructor; simpl; intuition discriminate.
Defined.

(** C1: for annotations whose property dicts have keys that are pairwise
    distinct, as the keys of a Python dict are, the table that [ac_to_df]
    builds has one row per annotation; every
    column, and so every [prop:] column, holds exactly one entry per
    annotation; the [prop:] columns are those of the property names met in
    the annotations; in such a column the entry of row [i] is the
    value-sequence of that property in the [i]-th annotation, or the
    one-element marker [['nan']] when the annotation lacks the property; and
    the fixed columns list the annotations in the same order. *)
Theorem ac_to_df_columns_aligned (annotations : list Annotation)
  (text_title name : string) :
  Forall annotation_wf annotations ->
  exists df,
    ac_to_df annotations text_title name = Ok df /\
    n_rows df = length annotations /\
    (forall label col,
        In (label, col) (columns df) -> length col = length annotations) /\
    (forall label col,
        In (label, col) (columns df) -> starts_with "prop:" label = true ->
        exists k,
          label = ("prop:" ++ k)%string /\
          (exists a, In a annotations /\ dict_mem k (properties a) = true) /\
          forall i a,
            nth_error annotations i = Some a ->
            nth_error col i
            = Some (CList (match dict_get (properties a) k with
                           | Some values => values
                           | None => ["nan"]
                           end))) /\
    (forall a k,
        In a annotations -> dict_mem k (properties a) = true ->
        exists col, In (("prop:" ++ k)%string, col) (columns df)) /\
    firstn 11 (columns df) = fixed_columns text_title name annotations.
Proof.
  intros Hwf.
  eexists. split; [apply ac_to_df_value; exact Hwf|].
  cbn [n_rows columns].
  split; [reflexivity|]. split; [|split; [|split]].
  - intros label col Hin. apply in_app_iff in Hin. destruct Hin as [Hin | Hin].
    + eapply fixed_columns_lengths; eassumption.
    + apply in_map_iff in Hin. destruct Hin as [k [Heq _]].
      inversion Heq. apply length_map.
  - intros label col Hin Hpre. apply in_app_iff in Hin.
    destruct Hin as [Hin | Hin].
    + apply fixed_columns_not_prop in Hin. congruence.
    + apply in_map_iff in Hin. destruct Hin as [k [Heq Hk]].
      inversion Heq. subst. exists k. split; [reflexivity|]. split.
      * apply seen_from_In in Hk. destruct Hk as [[] | [item [Hitem Hk]]].
        apply in_map_iff in Hitem. destruct Hitem as [a [Ha Hin]]. subst.
        exists a. split; [exact Hin | now apply key_in_true].
      * intros i a Hnth. rewrite nth_error_map, Hnth. reflexivity.
  - intros a k Ha Hk. eexists. apply in_app_iff. right.
    apply in_map_iff. exists k. split; [reflexivity|].
    apply seen_from_In. right. exists (properties a). split.
    + now apply in_map.
    + now apply key_in_true.
  - reflexivity.
Qed.

Lemma ac_to_df_columns_aligned_witness :
  exists df,
    ac_to_df example_annotations "Title" "Collection" = Ok df /\
    n_rows df = 3 /\
    (forall label col, In (label, col) (columns df) -> length col = 3) /\
    (forall label col,
        In (label, col) (columns df) -> starts_with "prop:" label = true ->
        exists k,
          label = ("prop:" ++ k)%string /\
          (exists a, In a example_annotations
                     /\ dict_mem k (properties a) = true) /\
          forall i a,
            nth_error example_annotations i = Some a ->
            nth_error col i
            = Some (CList (match dict_get (properties a) k with
                           | Some values => values
                           | None => ["nan"]
                           end))) /\
    (forall a k,
        In a example_annotations -> dict_mem k (properties a) = true ->
        exists col, In (("prop:" ++ k)%string, col) (columns df)) /\
    firstn 11 (columns df)
    = fixed_columns "Title" "Collection" example_annotations.
Proof.
  exact (ac_to_df_columns_aligned example_annotations "Title" "Collection"
           example_annotations_wf).
Defined.

(** ** most_common_token *)

Lemma collect_tokens_flat_map (f : string -> list string) (texts : list string) :
  forall acc,
    fold_left (fun token_list s => token_list ++ f s) texts acc
    = acc ++ flat_map f texts.
Proof.
  induction texts as [|s texts IH]; intros acc; simpl.
  - now rewrite app_nil_r.
  - now rewrite IH, app_assoc.
Qed.

Lemma filter_list_remove_empty (l : list string) :
  filter (fun t => negb (String.eqb t "")) (list_remove "" l)
  = filter (fun t => negb (String.eqb t "")) l.
Proof.
  induction l as [|y l IH]; [reflexivity|].
  destruct y as [|c y]; simpl; [reflexivity | now rewrite IH].
Qed.

Lemma filter_no_empty (l : list string) :
  key_in "" l = false -> filter (fun t => negb (String.eqb t "")) l = l.
Proof.
  induction l as [|y l IH]; [reflexivity|].
  destruct y as [|c y]; simpl; [discriminate|].
  intros H. now rewrite IH.
Qed.

(** The [while] loop ends and leaves the tokens that are not empty. *)
Lemma remove_empty_tokens_filter (token_list : list string) :
  remove_empty_tokens token_list
  = filter (fun t => negb (String.eqb t "")) token_list.
Proof.
  functional induction (remove_empty_tokens token_list) as [l E IH | l E].
  - rewrite IH. apply filter_list_remove_empty.
  - symmetry. now apply filter_no_empty.
Qed.

Lemma filter_no_stopwords (l : list string) :
  filter (fun t => negb (key_in t [])) l = l.
Proof. induction l as [|y l IH]; simpl; [reflexivity | now f_equal]. Qed.

Lemma most_common_token_tokens (texts : list string)
  (stopwords : option (list string)) (ranking : Z) :
  most_common_token texts stopwords ranking
  = most_common (Counter (spec_tokens texts stopwords)) ranking.
Proof.
  unfold most_common_token, spec_tokens.
  rewrite collect_tokens_flat_map, remove_empty_tokens_filter.
  cbn [app].
  destruct stopwords as [[|w ws]|]; cbv beta iota zeta; try reflexivity;
    now rewrite filter_no_stopwords.
Qed.

(** *** The counter *)

Lemma frequency_cons (t u : string) (l : list string) :
  frequency t (u :: l)
  = if String.eqb t u then S (frequency t l) else frequency t l.
Proof.
  unfold frequency. simpl.
  destruct (string_dec u t) as [Heq | Hne].
  - subst. now rewrite String.eqb_refl.
  - destruct (String.eqb t u) eqn:E; [|reflexivity].
    apply String.eqb_eq in E. congruence.
Qed.

Lemma counter_incr_absent (c : dict nat) (t : string) :
  dict_mem t c = false -> counter_incr c t = c ++ [(t, 1)].
Proof.
  unfold dict_mem, dict_keys, key_in.
  induction c as [|[k n] c IH]; simpl; [reflexivity|].
  destruct (String.eqb t k); simpl; [discriminate|].
  intros H. now rewrite IH.
Qed.

Lemma counter_incr_present (c : dict nat) (t : string) :
  NoDup (dict_keys c) -> dict_mem t c = true ->
  counter_incr c t
  = map (fun e => if String.eqb (fst e) t then (fst e, S (snd e)) else e) c.
Proof.
  unfold dict_mem, dict_keys, key_in.
  induction c as [|[k n] c IH]; simpl; [discriminate|].
  intros Hnd Hmem. inversion Hnd as [|? ? Hk Hnd']. subst.
  rewrite (String.eqb_sym k t).
  destruct (String.eqb t k) eqn:E; simpl in *.
  - f_equal. apply String.eqb_eq in E. subst. symmetry. apply map_fix.
    intros [k2 n2] Hin. simpl.
    destruct (String.eqb k2 k) eqn:E2; [|reflexivity].
    apply String.eqb_eq in E2. subst. exfalso. apply Hk.
    apply in_map_iff. now exists (k, n2).
  - f_equal. now apply IH.
Qed.

Lemma counter_incr_keys_present (c : dict nat) (t : string) :
  NoDup (dict_keys c) -> dict_mem t c = true ->
  dict_keys (counter_incr c t) = dict_keys c.
Proof.
  intros Hnd Hmem. rewrite counter_incr_present by assumption.
  unfold dict_keys. rewrite map_map. apply map_ext.
  intros [k n]. simpl. now destruct (String.eqb k t).
Qed.

#[local] Arguments frequency : simpl never.

(** The counter started from [c]: the counts of [c] grow by the
    frequencies in [l], and the tokens of [l] that [c] does not know follow
    in the order in which they are first met. *)
Lemma counter_fold (l : list string) :
  forall c : dict nat,
    NoDup (dict_keys c) ->
    fold_left counter_incr l c
    = map (fun e => (fst e, snd e + frequency (fst e) l)) c
      ++ map (fun t => (t, frequency t l))
           (filter (fun t => negb (dict_mem t c)) (distinct l)).
Proof.
  induction l as [|t l IH]; intros c Hc; simpl.
  - rewrite app_nil_r. symmetry. apply map_fix.
    intros [k n] _. unfold frequency. simpl. f_equal. lia.
  - destruct (dict_mem t c) eqn:Emem; simpl.
    + rewrite IH by now rewrite counter_incr_keys_present.
      rewrite counter_incr_present by assumption. rewrite map_map. f_equal.
      * apply map_ext. intros [k n]. simpl. rewrite frequency_cons.
        destruct (String.eqb k t); simpl; f_equal; lia.
      * rewrite <- counter_incr_present by assumption.
        unfold dict_mem. rewrite counter_incr_keys_present by assumption.
        rewrite filter_twice.
        assert (Hfil : forall u, In u (distinct l) ->
                  negb (key_in u (dict_keys c)) && negb (String.eqb u t)
                  = negb (key_in u (dict_keys c))).
        { intros u _. destruct (String.eqb u t) eqn:E;
            [|now rewrite andb_true_r].
          apply String.eqb_eq in E. subst. unfold dict_mem in Emem.
          now rewrite Emem. }
        rewrite (filter_ext_in _ _ _ Hfil).
        apply map_ext_in. intros u Hu. rewrite frequency_cons.
        apply filter_In in Hu. destruct Hu as [_ Hu].
        destruct (String.eqb u t) eqn:E; [|reflexivity].
        apply String.eqb_eq in E. subst. unfold dict_mem in Emem.
        rewrite Emem in Hu. discriminate.
    + rewrite counter_incr_absent by exact Emem.
      rewrite IH.
      * rewrite map_app. simpl. rewrite <- app_assoc. simpl. f_equal.
        -- apply map_ext_in. intros [k n] Hin. simpl. rewrite frequency_cons.
           destruct (String.eqb k t) eqn:E; [|reflexivity].
           apply String.eqb_eq in E. subst. exfalso.
           apply key_in_false in Emem. apply Emem.
           apply in_map_iff. now exists (t, n).
        -- rewrite frequency_cons, String.eqb_refl. f_equal.
           rewrite filter_twice.
           assert (Hfil : forall u,
                     negb (dict_mem u (c ++ [(t, 1)]))
                     = negb (dict_mem u c) && negb (String.eqb u t)).
           { intros u. rewrite dict_mem_app. unfold dict_mem at 2. simpl.
             rewrite orb_false_r. apply negb_orb. }
           rewrite (filter_ext _ _ Hfil).
           apply map_ext_in. intros u Hu. rewrite frequency_cons.
           apply filter_In in Hu. destruct Hu as [_ Hu].
           destruct (String.eqb u t); [|reflexivity].
           rewrite andb_false_r in Hu. discriminate.
      * unfold dict_keys. rewrite map_app. simpl.
        apply NoDup_snoc; [exact Hc|]. now apply key_in_false in Emem.
Qed.

Lemma Counter_value (tokens : list string) :
  Counter tokens = map (fun t => (t, frequency t tokens)) (distinct tokens).
Proof.
  unfold Counter. rewrite counter_fold by constructor. simpl.
  f_equal. apply map_fix. intros; reflexivity.
Qed.

(** *** The distinct tokens *)

Lemma distinct_In (l : list string) (t : string) :
  In t (distinct l) <-> In t l.
Proof.
  induction l as [|u l IH]; simpl; [tauto|].
  rewrite filter_In, IH. split.
  - intros [H | [H _]]; [now left | now right].
  - intros [H | H]; [now left|].
    destruct (String.eqb t u) eqn:E.
    + left. apply String.eqb_eq in E. now subst.
    + right. now split.
Qed.

Lemma distinct_NoDup (l : list string) : NoDup (distinct l).
Proof.
  induction l as [|u l IH]; simpl; constructor.
  - intros H. apply filter_In in H. destruct H as [_ H].
    now rewrite String.eqb_refl in H.
  - now apply NoDup_filter.
Qed.

Lemma StronglySorted_filter {A} (R : A -> A -> Prop) (f : A -> bool)
  (l : list A) :
  StronglySorted R l -> StronglySorted R (filter f l).
Proof.
  induction 1 as [|x l Hl IH Hx]; simpl; [constructor|].
  destruct (f x); [|exact IH]. constructor; [exact IH|].
  apply Forall_forall. intros y Hy. apply filter_In in Hy.
  rewrite Forall_forall in Hx. now apply Hx.
Qed.

Lemma StronglySorted_weaken {A} (R S : A -> A -> Prop) (l : list A) :
  (forall x y, In x l -> In y l -> R x y -> S x y) ->
  StronglySorted R l -> StronglySorted S l.
Proof.
  intros Himp H. induction H as [|x l Hl IH Hx]; constructor.
  - apply IH. intros a b Ha Hb. apply Himp; now right.
  - rewrite Forall_forall in *. intros y Hy.
    apply Himp; [now left | now right | now apply Hx].
Qed.

(** The distinct tokens are listed in the order in which they are first
    met. *)
Lemma distinct_first_index (l : list string) :
  StronglySorted (fun a b => first_index a l < first_index b l) (distinct l).
Proof.
  induction l as [|u l IH]; simpl; constructor.
  - apply (StronglySorted_filter _ (fun x => negb (String.eqb x u))) in IH.
    revert IH. apply StronglySorted_weaken.
    intros a b Ha Hb Hab. apply filter_In in Ha, Hb.
    destruct Ha as [_ Ha], Hb as [_ Hb].
    destruct (String.eqb a u); [discriminate|].
    destruct (String.eqb b u); [discriminate|]. lia.
  - apply Forall_forall. intros b Hb. apply filter_In in Hb.
    destruct Hb as [_ Hb]. rewrite String.eqb_refl.
    destruct (String.eqb b u); [discriminate | lia].
Qed.

(** *** The stable sort *)

Lemma insert_by_count_In (x y : string * nat) (l : list (string * nat)) :
  In y (insert_by_count x l) <-> y = x \/ In y l.
Proof.
  induction l as [|z l IH]; simpl.
  - split; intros [H | H]; auto.
  - destruct (Nat.ltb (snd x) (snd z)); simpl.
    + rewrite IH. tauto.
    + split; intros [H | H]; auto.
Qed.

Lemma insert_by_count_length (x : string * nat) (l : list (string * nat)) :
  length (insert_by_count x l) = S (length l).
Proof.
  induction l as [|z l IH]; simpl; [reflexivity|].
  destruct (Nat.ltb (snd x) (snd z)); simpl; [now rewrite IH | reflexivity].
Qed.

Lemma sorted_by_count_desc_In (y : string * nat) (l : list (string * nat)) :
  In y (sorted_by_count_desc l) <-> In y l.
Proof.
  induction l as [|x l IH]; simpl; [tauto|].
  rewrite insert_by_count_In, IH. split; intros [H | H]; auto.
Qed.

Lemma sorted_by_count_desc_length (l : list (string * nat)) :
  length (sorted_by_count_desc l) = length l.
Proof.
  induction l as [|x l IH]; simpl; [reflexivity|].
  now rewrite insert_by_count_length, IH.
Qed.

Lemma insert_by_count_perm (x : string * nat) (l : list (string * nat)) :
  Permutation (insert_by_count x l) (x :: l).
Proof.
  induction l as [|z l IH]; simpl; [reflexivity|].
  destruct (Nat.ltb (snd x) (snd z)); [|reflexivity].
  rewrite IH. apply perm_swap.
Qed.

Lemma sorted_by_count_desc_perm (l : list (string * nat)) :
  Permutation (sorted_by_count_desc l) l.
Proof.
  induction l as [|x l IH]; simpl; [reflexivity|].
  rewrite insert_by_count_perm. now constructor.
Qed.

Section StableSort.

(** [earlier p q]: the item [p] stands before [q] in the list to sort. *)
Variable earlier : string * nat -> string * nat -> Prop.

Lemma insert_by_count_ranked (x : string * nat) (l : list (string * nat)) :
  StronglySorted (ranked earlier) l ->
  (forall y, In y l -> earlier x y) ->
  StronglySorted (ranked earlier) (insert_by_count x l).
Proof.
  induction 1 as [|z l Hl IH Hz]; intros Hx; simpl.
  - repeat constructor.
  - rewrite Forall_forall in Hz.
    destruct (Nat.ltb (snd x) (snd z)) eqn:E.
    + apply Nat.ltb_lt in E. constructor.
      * apply IH. intros y Hy. apply Hx. now right.
      * apply Forall_forall. intros y Hy. apply insert_by_count_In in Hy.
        destruct Hy as [Hy | Hy]; [subst; now left | now apply Hz].
    + apply Nat.ltb_ge in E. constructor.
      * now constructor; [|apply Forall_forall].
      * apply Forall_forall. intros y Hy.
        assert (Hle : snd y <= snd x).
        { destruct Hy as [Hy | Hy]; [now subst|].
          destruct (Hz y Hy) as [H | [H _]]; lia. }
        assert (He : earlier x y) by now apply Hx.
        unfold ranked. destruct (Nat.eq_dec (snd x) (snd y)); [right | left];
          [now split | lia].
Qed.

Lemma sorted_by_count_desc_ranked (l : list (string * nat)) :
  StronglySorted earlier l ->
  StronglySorted (ranked earlier) (sorted_by_count_desc l).
Proof.
  induction 1 as [|x l Hl IH Hx]; simpl; [constructor|].
  apply insert_by_count_ranked; [exact IH|].
  rewrite Forall_forall in Hx. intros y Hy. apply Hx.
  now apply sorted_by_count_desc_In.
Qed.

End StableSort.

Lemma StronglySorted_app_cross {A} (R : A -> A -> Prop) (l1 l2 : list A) :
  StronglySorted R (l1 ++ l2) ->
  forall x y, In x l1 -> In y l2 -> R x y.
Proof.
  induction l1 as [|a l1 IH]; simpl; intros H x y Hx Hy; [destruct Hx|].
  inversion H as [|? ? Hs Hf]. subst. destruct Hx as [Hx | Hx].
  - subst. rewrite Forall_forall in Hf. apply Hf. apply in_app_iff. now right.
  - now apply IH.
Qed.

Lemma StronglySorted_app_l {A} (R : A -> A -> Prop) (l1 l2 : list A) :
  StronglySorted R (l1 ++ l2) -> StronglySorted R l1.
Proof.
  induction l1 as [|a l1 IH]; simpl; intros H; [constructor|].
  inversion H as [|? ? Hs Hf]. subst. constructor; [now apply IH|].
  rewrite Forall_forall in *. intros y Hy. apply Hf. apply in_app_iff.
  now left.
Qed.

Lemma NoDup_app_l {A} (l1 l2 : list A) : NoDup (l1 ++ l2) -> NoDup l1.
Proof.
  induction l1 as [|a l1 IH]; simpl; intros H; [constructor|].
  inversion H as [|? ? Hn Hd]. subst. constructor; [|now apply IH].
  intros Hin. apply Hn. apply in_app_iff. now left.
Qed.

(** The full ranking of the tokens: every distinct token with its
    frequency, ordered by [ranked_before]. *)
Lemma ranking_of_tokens (tokens : list string) :
  let full := sorted_by_count_desc (Counter tokens) in
  (forall t n, In (t, n) full <-> In t tokens /\ n = frequency t tokens) /\
  NoDup (dict_keys full) /\
  StronglySorted (ranked_before tokens) full /\
  length full = length (distinct tokens).
Proof.
  intros full. unfold full. rewrite Counter_value.
  set (items := map (fun t => (t, frequency t tokens)) (distinct tokens)).
  assert (Hin : forall t n,
             In (t, n) (sorted_by_count_desc items)
             <-> In t tokens /\ n = frequency t tokens).
  { intros t n. rewrite sorted_by_count_desc_In. unfold items.
    rewrite in_map_iff. split.
    - intros [u [Heq Hu]]. inversion Heq. subst.
      split; [now apply distinct_In | reflexivity].
    - intros [Ht Hn]. exists t. subst. split; [reflexivity|].
      now apply distinct_In. }
  assert (Hsorted : StronglySorted (ranked_before tokens)
                      (sorted_by_count_desc items)).
  { apply (sorted_by_count_desc_ranked
             (fun p q => first_index (fst p) tokens
                         < first_index (fst q) tokens)).
    unfold items. generalize (distinct_first_index tokens).
    generalize (distinct tokens). intros ds Hds.
    induction Hds as [|a ds Hs IH Ha]; simpl; constructor; [exact IH|].
    rewrite Forall_forall in *. intros y Hy. apply in_map_iff in Hy.
    destruct Hy as [b [Heq Hb]]. subst. simpl. now apply Ha. }
  split; [exact Hin|]. split; [|split; [exact Hsorted|]].
  - apply (Permutation_NoDup (l := dict_keys items)).
    + apply Permutation_sym. unfold dict_keys. apply Permutation_map.
      apply sorted_by_count_desc_perm.
    + unfold items, dict_keys. rewrite map_map. simpl. rewrite map_id.
      apply distinct_NoDup.
  - rewrite sorted_by_count_desc_length. unfold items. apply length_map.
Qed.

(** C6: [most_common_token] counts the tokens obtained by stripping the
    punctuation characters from each text, splitting on single spaces,
    dropping the empty tokens and dropping the stopwords when a list is
    given ([spec_tokens]).  Its result pairs tokens with their frequencies,
    names no token twice, is ordered by descending frequency with ties in
    the order in which the tokens are first met, holds the requested number
    of entries (or all distinct tokens when there are fewer), and leaves out
    only tokens that rank after every entry it keeps.  For the texts
    ["a b b"; "b c"] and a ranking of 2 it is {"b": 3, "a": 1}: the token
    "b" is met three times in the two texts. *)
Theorem most_common_token_ranking (texts : list string)
  (stopwords : option (list string)) (ranking : Z) :
  let tokens := spec_tokens texts stopwords in
  let result := most_common_token texts stopwords ranking in
  (forall t n, In (t, n) result -> In t tokens /\ n = frequency t tokens) /\
  NoDup (dict_keys result) /\
  StronglySorted (ranked_before tokens) result /\
  length result = Nat.min (Z.to_nat ranking) (length (distinct tokens)) /\
  (forall t, In t tokens -> ~ In t (dict_keys result) ->
             forall p, In p result ->
                       ranked_before tokens p (t, frequency t tokens)) /\
  most_common_token ["a b b"; "b c"] None 2 = [("b", 3); ("a", 1)].
Proof.
  intros tokens result. unfold result.
  rewrite most_common_token_tokens. fold tokens. unfold most_common.
  destruct (ranking_of_tokens tokens) as [Hin [Hnd [Hsorted Hlen]]].
  set (full := sorted_by_count_desc (Counter tokens)) in *.
  set (n := Z.to_nat ranking).
  assert (Hsplit : full = firstn n full ++ skipn n full)
    by (symmetry; apply firstn_skipn).
  assert (Hsub : forall p, In p (firstn n full) -> In p full).
  { intros p Hp. rewrite Hsplit. apply in_app_iff. now left. }
  split; [|split; [|split; [|split; [|split]]]].
  - intros t c Htc. apply Hin. now apply Hsub.
  - unfold dict_keys. rewrite <- firstn_map.
    apply (NoDup_app_l _ (skipn n (map fst full))).
    rewrite firstn_skipn. exact Hnd.
  - apply (StronglySorted_app_l _ _ (skipn n full)).
    rewrite <- Hsplit. exact Hsorted.
  - rewrite length_firstn. now rewrite Hlen.
  - intros t Ht Hout p Hp.
    assert (Hfull : In (t, frequency t tokens) full) by now apply Hin.
    rewrite Hsplit in Hfull. apply in_app_iff in Hfull.
    destruct Hfull as [Hfull | Hfull].
    + exfalso. apply Hout. apply in_map_iff.
      now exists (t, frequency t tokens).
    + apply (StronglySorted_app_cross _ (firstn n full) (skipn n full));
        [rewrite <- Hsplit; exact Hsorted | exact Hp | exact Hfull].
  - vm_compute. reflexivity.
Qed.

(** C6, the example as the specification has it: the result for the texts
    ["a b b"; "b c"] and a ranking of 2 is not {"b": 2, "a": 1}. *)
Lemma most_common_token_example_count :
  most_common_token ["a b b"; "b c"] None 2 <> [("b", 2); ("a", 1)].
Proof. vm_compute. discriminate. Qed.

(** ** The constructor *)

Lemma starts_with_app (s t : string) : starts_with s (s ++ t) = true.
Proof.
  induction s as [|c s IH]; simpl; [reflexivity|].
  now rewrite Ascii.eqb_refl.
Qed.

Lemma str_in_app (sub pre post : string) :
  str_in sub (pre ++ sub ++ post) = true.
Proof.
  induction pre as [|c pre IH].
  - simpl. destruct (sub ++ post)%string eqn:E.
    + simpl. rewrite <- E. now rewrite starts_with_app.
    + simpl str_in. rewrite <- E. now rewrite starts_with_app.
  - simpl. rewrite IH. apply orb_true_r.
Qed.

Lemma header_message_names_directory (directory : string) :
  str_in directory (header_not_found_message directory) = true.
Proof. unfold header_not_found_message. apply str_in_app. Qed.

Lemma str_in_app_r (sub pre s : string) :
  str_in sub s = true -> str_in sub (pre ++ s) = true.
Proof.
  intros H. induction pre as [|c pre IH]; simpl; [exact H|].
  rewrite IH. apply orb_true_r.
Qed.

Lemma header_message_has_hint (directory : string) :
  str_in "Make sure the CATMA project clone worked properly."
    (header_not_found_message directory) = true.
Proof.
  unfold header_not_found_message.
  apply str_in_app_r. apply str_in_app_r. reflexivity.
Qed.

(** C9: when the file [header.json] of the collection is absent, the
    constructor raises [FileNotFoundError]; the message names the path at
    which the collection was expected and holds the hint to make sure that
    the clone of the project worked; no collection is built, and nothing
    else of the environment decides the outcome. *)
Theorem init_missing_header (w : World) (uuid_arg : string)
  (catma_project : CatmaProject) (context : Z) (os_message : string) :
  let directory := (project_uuid catma_project ++ "/collections/"
                    ++ uuid_arg ++ "/")%string in
  open_header w (directory ++ "header.json")
  = Raise (FileNotFoundError os_message) ->
  exists message,
    init w uuid_arg catma_project context
    = Raise (FileNotFoundError message) /\
    message = header_not_found_message directory /\
    str_in directory message = true /\
    str_in "Make sure the CATMA project clone worked properly." message
    = true /\
    forall w' : World,
      open_header w' = open_header w ->
      init w' uuid_arg catma_project context
      = Raise (FileNotFoundError message).
Proof.
  intros directory Hopen. exists (header_not_found_message directory).
  split; [|split; [reflexivity|split; [|split]]].
  - unfold init. fold directory. rewrite Hopen. reflexivity.
  - apply header_message_names_directory.
  - apply header_message_has_hint.
  - intros w' Hw'. unfold init. fold directory. rewrite Hw', Hopen.
    reflexivity.
Qed.

Lemma init_missing_header_witness :
  exists message,
    init (example_world None) "X" example_project 50
    = Raise (FileNotFoundError message) /\
    message = header_not_found_message "P/collections/X/" /\
    str_in "P/collections/X/" message = true /\
    str_in "Make sure the CATMA project clone worked properly." message
    = true /\
    forall w' : World,
      open_header w' = open_header (example_world None) ->
      init w' "X" example_project 50 = Raise (FileNotFoundError message).
Proof.
  exact (init_missing_header (example_world None) "X" example_project 50
           "P/collections/X/header.json" eq_refl).
Defined.

Lemma init_without_annotations_directory (w : World) (uuid_arg : string)
  (catma_project : CatmaProject) (context : Z) (header : dict string)
  (name plain_text_id : string) (text : Text) :
  let directory := (project_uuid catma_project ++ "/collections/"
                    ++ uuid_arg ++ "/")%string in
  open_header w (directory ++ "header.json") = Ok header ->
  dict_get header "name" = Some name ->
  dict_get header "sourceDocumentId" = Some plain_text_id ->
  load_text w (project_uuid catma_project) plain_text_id = Ok text ->
  isdir w (directory ++ "annotations/") = false ->
  exists self,
    init w uuid_arg catma_project context = Ok self /\
    ac_annotations self = [] /\
    ac_df self = DataFrame_empty df_columns.
Proof.
  intros directory Hopen Hname Hid Htext Hdir.
  unfold init. fold directory. rewrite Hopen. simpl.
  unfold dict_item. rewrite Hname. simpl. rewrite Hid. simpl.
  rewrite Htext. simpl. rewrite Hdir.
  eexists. split; [reflexivity|]. split; reflexivity.
Qed.

Lemma ac_to_df_labels (annotations : list Annotation) (text_title name : string)
  (df : DataFrame) :
  Forall annotation_wf annotations ->
  ac_to_df annotations text_title name = Ok df ->
  df_column_labels df
  = [ "document"; "annotation collection"; "annotator"; "tag"; "tag_path";
      "left_context"; "annotation"; "right_context"; "start_point";
      "end_point"; "date" ]
    ++ map (fun k => ("prop:" ++ k)%string)
         (seen_keys (map properties annotations)).
Proof.
  intros Hwf Hdf. rewrite ac_to_df_value in Hdf by exact Hwf.
  injection Hdf as <-. unfold df_column_labels, dict_keys. cbn [columns].
  cbn [map fst app]. do 11 f_equal. rewrite map_map. reflexivity.
Qed.

Lemma ac_to_df_drops_properties (annotations : list Annotation)
  (text_title name : string) (df : DataFrame) :
  Forall annotation_wf annotations ->
  ac_to_df annotations text_title name = Ok df ->
  ~ In "properties" (df_column_labels df).
Proof.
  intros Hwf Hdf. rewrite (ac_to_df_labels _ _ _ _ Hwf Hdf).
  intros Hin. apply in_app_iff in Hin. destruct Hin as [Hin | Hin].
  - simpl in Hin. intuition discriminate.
  - apply in_map_iff in Hin. destruct Hin as [k [Heq _]]. discriminate.
Qed.

(** C4: a collection whose directory [annotations/] is missing is built
    without an exception, has no annotation and a table without rows and
    without a [prop:] column; but the table has the twelve labels of
    [df_columns], among them [properties], while no table built by
    [ac_to_df], which serves every collection whose directory exists, empty
    or not, has a column [properties]: such a table has the eleven other
    labels, followed by the [prop:] columns. *)
Theorem missing_directory_table_columns (w : World) (uuid_arg : string)
  (catma_project : CatmaProject) (context : Z) (header : dict string)
  (name plain_text_id : string) (text : Text) :
  let directory := (project_uuid catma_project ++ "/collections/"
                    ++ uuid_arg ++ "/")%string in
  open_header w (directory ++ "header.json") = Ok header ->
  dict_get header "name" = Some name ->
  dict_get header "sourceDocumentId" = Some plain_text_id ->
  load_text w (project_uuid catma_project) plain_text_id = Ok text ->
  isdir w (directory ++ "annotations/") = false ->
  exists self,
    init w uuid_arg catma_project context = Ok self /\
    ac_annotations self = [] /\
    n_rows (ac_df self) = 0 /\
    prop_cols (ac_df self) = [] /\
    df_column_labels (ac_df self)
    = [ "document"; "annotation collection"; "annotator"; "tag"; "tag_path";
        "properties"; "left_context"; "annotation"; "right_context";
        "start_point"; "end_point"; "date" ] /\
    (exists df_empty,
        ac_to_df [] (title text) name = Ok df_empty /\
        df_column_labels df_empty
        = [ "document"; "annotation collection"; "annotator"; "tag";
            "tag_path"; "left_context"; "annotation"; "right_context";
            "start_point"; "end_point"; "date" ]) /\
    (forall annotations df,
        Forall annotation_wf annotations ->
        ac_to_df annotations (title text) name = Ok df ->
        ~ In "properties" (df_column_labels df) /\
        firstn 11 (df_column_labels df)
        = [ "document"; "annotation collection"; "annotator"; "tag";
            "tag_path"; "left_context"; "annotation"; "right_context";
            "start_point"; "end_point"; "date" ]).
Proof.
  intros directory Hopen Hname Hid Htext Hdir.
  destruct (init_without_annotations_directory w uuid_arg catma_project
              context header name plain_text_id text
              Hopen Hname Hid Htext Hdir) as [self [Hinit [Han Hdf]]].
  exists self. split; [exact Hinit|]. split; [exact Han|].
  rewrite Hdf. split; [reflexivity|]. split; [reflexivity|].
  split; [reflexivity|]. split.
  - eexists. split; reflexivity.
  - intros annotations df Hwf Hok. split.
    + now apply (ac_to_df_drops_properties annotations (title text) name).
    + now rewrite (ac_to_df_labels _ _ _ _ Hwf Hok).
Qed.

Lemma missing_directory_table_columns_witness :
  exists self,
    init (example_world None) "C" example_project 50 = Ok self /\
    ac_annotations self = [] /\
    n_rows (ac_df self) = 0 /\
    prop_cols (ac_df self) = [] /\
    df_column_labels (ac_df self)
    = [ "document"; "annotation collection"; "annotator"; "tag"; "tag_path";
        "properties"; "left_context"; "annotation"; "right_context";
        "start_point"; "end_point"; "date" ] /\
    (exists df_empty,
        ac_to_df [] "Title" "Collection" = Ok df_empty /\
        df_column_labels df_empty
        = [ "document"; "annotation collection"; "annotator"; "tag";
            "tag_path"; "left_context"; "annotation"; "right_context";
            "start_point"; "end_point"; "date" ]) /\
    (forall annotations df,
        Forall annotation_wf annotations ->
        ac_to_df annotations "Title" "Collection" = Ok df ->
        ~ In "properties" (df_column_labels df) /\
        firstn 11 (df_column_labels df)
        = [ "document"; "annotation collection"; "annotator"; "tag";
            "tag_path"; "left_context"; "annotation"; "right_context";
            "start_point"; "end_point"; "date" ]).
Proof.
  exact (missing_directory_table_columns (example_world None) "C"
           example_project 50
           [("name", "Collection"); ("sourceDocumentId", "D")]
           "Collection" "D" (mkText "Title" "some text")
           eq_refl eq_refl eq_refl eq_refl eq_refl).
Defined.

(** ** get_annotation_by_tag *)

Lemma tag_or_parent_named_value (tag_name_arg : string) (a : Annotation) :
  tag_or_parent_named tag_name_arg a
  = if parent_readable tag_name_arg a
    then Ok (named_or_child_of tag_name_arg a)
    else Raise AttributeError.
Proof.
  unfold tag_or_parent_named, parent_readable, named_or_child_of.
  destruct (String.eqb (tag_name (tag a)) tag_name_arg); simpl;
    [reflexivity|].
  now destruct (tag_parent (tag a)).
Qed.

Lemma filterM_tags (tag_name_arg : string) (l : list Annotation) :
  filterM (tag_or_parent_named tag_name_arg) l
  = if forallb (parent_readable tag_name_arg) l
    then Ok (filter (named_or_child_of tag_name_arg) l)
    else Raise AttributeError.
Proof.
  induction l as [|a l IH]; simpl; [reflexivity|].
  rewrite tag_or_parent_named_value.
  destruct (parent_readable tag_name_arg a); simpl; [|reflexivity].
  rewrite IH.
  destruct (forallb (parent_readable tag_name_arg) l); simpl; [|reflexivity].
  now destruct (named_or_child_of tag_name_arg a).
Qed.

(** C10, as the code has it: [get_annotation_by_tag] reads the name of the
    parent only of a tag whose own name differs from the given name.  When
    every such tag has a parent, the result is the list of the annotations
    whose tag, or the parent of whose tag, has the given name, in the order
    of the collection; otherwise the call raises [AttributeError]. *)
Theorem get_annotation_by_tag_value (self : AnnotationCollection)
  (tag_name_arg : string) :
  get_annotation_by_tag self tag_name_arg
  = if forallb (parent_readable tag_name_arg) (ac_annotations self)
    then Ok (filter (named_or_child_of tag_name_arg) (ac_annotations self))
    else Raise AttributeError.
Proof. unfold get_annotation_by_tag. apply filterM_tags. Qed.

(** C10, as the specification has it: a collection with an annotation
    whose tag has no parent can be searched without a failure, namely for
    the name of that tag when all other tags have parents. *)
Lemma get_annotation_by_tag_root_tag :
  exists c a,
    example_collection (Some example_annotations) "C" = Ok c /\
    In a (ac_annotations c) /\
    tag_parent (tag a) = None /\
    get_annotation_by_tag c "Setting" = Ok [a].
Proof.
  do 2 eexists. split; [vm_compute; reflexivity|].
  split; [right; right; left; reflexivity|].
  split; reflexivity.
Qed.

(** ** filter_by_tag_path *)

Lemma re_compile_simple_ok : re_engine_ok re_compile_simple.
Proof.
  intros pat atoms H. unfold re_compile_simple. rewrite H.
  exists (re_search_atoms atoms). split; reflexivity.
Defined.

(** A pattern without special characters is searched as a literal text. *)
Lemma re_parse_literal (pat : string) :
  (forall c, char_in c pat = true -> char_in c re_metachars = false) ->
  re_parse_simple pat = Some (map RLit (list_ascii_of_string pat)).
Proof.
  induction pat as [|c pat IH]; intros H; [reflexivity|].
  cbn [re_parse_simple list_ascii_of_string map].
  rewrite IH by (intros d Hd; apply H; simpl; rewrite Hd; apply orb_true_r).
  assert (Hc : char_in c re_metachars = false)
    by (apply H; simpl; now rewrite Ascii.eqb_refl).
  rewrite Hc.
  destruct (Ascii.eqb c ".") eqn:E; [|reflexivity].
  apply Ascii.eqb_eq in E. subst. discriminate.
Qed.

Lemma re_match_here_literal (pat s : string) :
  re_match_here (map RLit (list_ascii_of_string pat)) s = starts_with pat s.
Proof.
  revert s. induction pat as [|c pat IH]; intros s; simpl; [reflexivity|].
  destruct s as [|d s]; [reflexivity|]. now rewrite IH.
Qed.

Lemma re_search_literal (pat s : string) :
  re_search_atoms (map RLit (list_ascii_of_string pat)) s = str_in pat s.
Proof.
  induction s as [|d s IH]; simpl.
  - now rewrite re_match_here_literal.
  - rewrite IH. f_equal. apply (re_match_here_literal pat (String d s)).
Qed.

(** For a path element without special characters the filter keeps the
    rows whose tag path holds the element as a substring. *)
Lemma filter_by_tag_path_literal (re_compile : string -> exc (string -> bool))
  (self : AnnotationCollection) (paths : list string) (path_element : string) :
  re_engine_ok re_compile ->
  (forall c, char_in c path_element = true -> char_in c re_metachars = false) ->
  df_get (ac_df self) "tag_path" = Ok (map CStr paths) ->
  filter_by_tag_path re_compile self path_element
  = Ok (df_select (ac_df self) (map (str_in path_element) paths)).
Proof.
  intros Hre Hlit Hcol. unfold filter_by_tag_path. rewrite Hcol. simpl.
  unfold str_contains.
  destruct (Hre _ _ (re_parse_literal _ Hlit)) as [search [Hcomp Hs]].
  rewrite Hcomp. cbn [bind].
  rewrite (mapM_ok _ (fun c => match c with
                               | CStr s => str_in path_element s
                               | _ => false
                               end)).
  - simpl. now rewrite map_map.
  - intros c Hc. apply in_map_iff in Hc. destruct Hc as [s [Heq _]]. subst.
    now rewrite Hs, re_search_literal.
Qed.

(** C3: the path element is read as a regular expression.  For the element
    "." the filter returns every row of the example table, although no tag
    path of that table holds a full stop; for the element "Character" it
    returns the rows whose tag path holds that text. *)
Theorem filter_by_tag_path_regex (re_compile : string -> exc (string -> bool)) :
  re_engine_ok re_compile ->
  exists c,
    example_collection (Some example_annotations) "C" = Ok c /\
    df_get (ac_df c) "tag_path"
    = Ok [ CStr "Plot>Character>Hero"; CStr "Plot>Character>Hero";
           CStr "Plot>Setting" ] /\
    str_in "." "Plot>Character>Hero" = false /\
    str_in "." "Plot>Setting" = false /\
    filter_by_tag_path re_compile c "." = Ok (ac_df c) /\
    filter_by_tag_path re_compile c "Character"
    = Ok (df_select (ac_df c) [true; true; false]).
Proof.
  intros Hre. eexists. split; [vm_compute; reflexivity|].
  split; [reflexivity|]. split; [reflexivity|]. split; [reflexivity|].
  unfold filter_by_tag_path, str_contains. cbn [ac_df].
  match goal with
  | |- context [df_get ?d "tag_path"] =>
      replace (df_get d "tag_path")
        with (Ok [ CStr "Plot>Character>Hero"; CStr "Plot>Character>Hero";
                   CStr "Plot>Setting" ] : exc (list cell))
        by reflexivity
  end.
  cbn [bind]. split.
  - destruct (Hre "." [RAny] eq_refl) as [search [Hc Hs]].
    rewrite Hc. cbn [bind mapM]. rewrite !Hs. reflexivity.
  - destruct (Hre "Character"
                (map RLit (list_ascii_of_string "Character")) eq_refl)
      as [search [Hc Hs]].
    rewrite Hc. cbn [bind mapM]. rewrite !Hs. reflexivity.
Qed.

Lemma filter_by_tag_path_regex_witness :
  exists c,
    example_collection (Some example_annotations) "C" = Ok c /\
    df_get (ac_df c) "tag_path"
    = Ok [ CStr "Plot>Character>Hero"; CStr "Plot>Character>Hero";
           CStr "Plot>Setting" ] /\
    str_in "." "Plot>Character>Hero" = false /\
    str_in "." "Plot>Setting" = false /\
    filter_by_tag_path re_compile_simple c "." = Ok (ac_df c) /\
    filter_by_tag_path re_compile_simple c "Character"
    = Ok (df_select (ac_df c) [true; true; false]).
Proof.
  exact (filter_by_tag_path_regex re_compile_simple re_compile_simple_ok).
Defined.

(** ** The property names of the table *)

Lemma str_replace_absent (old new s : string) :
  str_in old s = false -> str_replace_from old new 0 s = s.
Proof.
  induction s as [|c s IH]; simpl; [reflexivity|].
  intros H. apply orb_false_iff in H. destruct H as [Hpre Hin].
  change (match old with
          | "" => true
          | String a p' => Ascii.eqb a c && starts_with p' s
          end) with (starts_with old (String c s)).
  rewrite Hpre. now rewrite IH.
Qed.

Lemma prop_label_replace (k : string) :
  str_in "prop:" k = false -> str_replace "prop:" "" ("prop:" ++ k) = k.
Proof.
  intros H. unfold str_replace. simpl. now apply str_replace_absent.
Qed.

(** The names listed for a table built by [ac_to_df] are the property names
    of the annotations, as long as no name holds the text [prop:]. *)
Lemma prop_cols_of_table (annotations : list Annotation)
  (text_title name : string) (df : DataFrame) :
  Forall annotation_wf annotations ->
  (forall a k, In a annotations -> In k (dict_keys (properties a)) ->
               str_in "prop:" k = false) ->
  ac_to_df annotations text_title name = Ok df ->
  prop_cols df = seen_keys (map properties annotations).
Proof.
  intros Hwf Hfree Hdf. unfold prop_cols.
  rewrite (ac_to_df_labels _ _ _ _ Hwf Hdf).
  rewrite filter_app.
  replace (filter (str_in "prop:")
             [ "document"; "annotation collection"; "annotator"; "tag";
               "tag_path"; "left_context"; "annotation"; "right_context";
               "start_point"; "end_point"; "date" ])
    with (@nil string) by reflexivity.
  cbn [app].
  assert (Hkeys : forall k, In k (seen_keys (map properties annotations)) ->
                            str_in "prop:" k = false).
  { intros k Hk. apply seen_from_In in Hk.
    destruct Hk as [[] | [item [Hitem Hk]]].
    apply in_map_iff in Hitem. destruct Hitem as [a [Heq Ha]]. subst.
    now apply (Hfree a). }
  induction (seen_keys (map properties annotations)) as [|k ks IH];
    [reflexivity|].
  cbn [map filter].
  replace (str_in "prop:" ("prop:" ++ k)) with true by reflexivity.
  cbn [map]. rewrite prop_label_replace by (apply Hkeys; now left).
  f_equal. apply IH. intros k' Hk'. apply Hkeys. now right.
Qed.

(** ** write_annotation_csv *)

Lemma annotation_output_labels (self : AnnotationCollection) (tags : tags_arg)
  (property : string) (only_missing : bool) (r : dict string) :
  In r (annotation_output self tags property only_missing) ->
  dict_keys r
  = if only_missing
    then ["id"; "annotation_collection"; "tag"; "text"; "property"; "values"]
    else ["id"; "annotation_collection"; "text"; "tag"; "property"; "values"].
Proof.
  unfold annotation_output. intros H.
  apply in_flat_map in H. destruct H as [an [_ H]].
  apply in_flat_map in H. destruct H as [prop [_ H]].
  destruct (key_in prop _); [|destruct H].
  destruct only_missing.
  - destruct (Nat.ltb _ 1); [|destruct H].
    destruct H as [H | []]. now subst.
  - destruct H as [H | []]. now subst.
Qed.

(** C5: every row written without [only_missing_prop_values] has its
    fields in the order id, annotation_collection, text, tag, property,
    values, and the header line of the example file reads so; every row
    written with [only_missing_prop_values] has the order id,
    annotation_collection, tag, text, property, values and an empty values
    field. *)
Theorem write_annotation_csv_column_order (self : AnnotationCollection)
  (tags : tags_arg) (property : string) :
  Forall (fun r => dict_keys r
                   = ["id"; "annotation_collection"; "text"; "tag";
                      "property"; "values"])
    (annotation_output self tags property false) /\
  Forall (fun r => dict_keys r
                   = ["id"; "annotation_collection"; "tag"; "text";
                      "property"; "values"]
                   /\ dict_get r "values" = Some "")
    (annotation_output self tags property true) /\
  exists c,
    example_collection (Some example_annotations) "C" = Ok c /\
    write_annotation_csv c (TagsStr "all") "all" false "PropertyAnnotationTable"
    = ("PropertyAnnotationTable.csv",
       [ String.append "id;annotation_collection;text;tag;property;values"
           (String newline "");
         String.append "U1;Collection;some text;Hero;color;red,blue"
           (String newline "");
         String.append "U1;Collection;some text;Hero;size;"
           (String newline "");
         String.append "U3;Collection;some text;Hero;size;big"
           (String newline "");
         String.append "U2;Collection;some text;Setting;mood;a,b"
           (String newline "") ]) /\
    write_annotation_csv c (TagsStr "all") "all" true "PropertyAnnotationTable"
    = ("PropertyAnnotationTable.csv",
       [ String.append "id;annotation_collection;tag;text;property;values"
           (String newline "");
         String.append "U1;Collection;Hero;some text;size;"
           (String newline "") ]).
Proof.
  split; [|split].
  - apply Forall_forall. intros r Hr.
    now apply annotation_output_labels in Hr.
  - apply Forall_forall. intros r Hr. split.
    + now apply annotation_output_labels in Hr.
    + unfold annotation_output in Hr.
      apply in_flat_map in Hr. destruct Hr as [an [_ H]].
      apply in_flat_map in H. destruct H as [prop [_ H]].
      destruct (key_in prop _); [|destruct H].
      destruct (Nat.ltb _ 1); [|destruct H].
      destruct H as [H | []]. now subst.
  - eexists. split; [vm_compute; reflexivity|].
    split; vm_compute; reflexivity.
Qed.

(** ** read_annotation_csv *)

Lemma import_row_value (an_dict : dict Annotation) (st : ImportState)
  (row : dict pyval) :
  import_row an_dict st row
  = Ok (match row_call an_dict row with
        | Some c =>
            mkImportState (set_calls st ++ [c]) (S (annotation_counter st))
              (missed_annotation_counter st)
        | None =>
            mkImportState (set_calls st) (annotation_counter st)
              (S (missed_annotation_counter st))
        end).
Proof.
  unfold import_row, import_try, row_call, dict_item, an_dict_item, dict_item.
  destruct (dict_get row "values") as [[s | | z]|]; simpl; try reflexivity.
  destruct (dict_get row "id") as [[i | | z]|]; simpl; try reflexivity;
    try (destruct (dict_get row "tag"); [destruct (dict_get row "property")|];
         reflexivity).
  destruct (dict_get an_dict i) as [an|]; simpl;
    destruct (dict_get row "tag") as [t|]; simpl; try reflexivity;
    destruct (dict_get row "property") as [p|]; simpl; reflexivity.
Qed.

Lemma row_call_updates (an_dict : dict Annotation) (row : dict pyval) :
  row_updates an_dict row
  = match row_call an_dict row with Some _ => true | None => false end.
Proof.
  unfold row_updates, row_call, values_is_string, id_is_known.
  destruct (dict_get row "values") as [[s | | z]|]; simpl; try reflexivity.
  destruct (dict_get row "id") as [[i | | z]|]; simpl; try reflexivity.
  destruct (dict_mem i an_dict) eqn:Ei; simpl.
  - destruct (dict_get an_dict i) eqn:E;
      [|apply dict_get_none in E; congruence].
    destruct (dict_get row "tag") eqn:Et.
    + rewrite (dict_get_some_mem _ _ _ Et). simpl.
      destruct (dict_get row "property") eqn:Ep.
      * now rewrite (dict_get_some_mem _ _ _ Ep).
      * apply dict_get_none in Ep. now rewrite Ep.
    + apply dict_get_none in Et. now rewrite Et.
  - apply dict_get_none in Ei. rewrite Ei.
    destruct (dict_get row "tag"); [destruct (dict_get row "property")|];
      reflexivity.
Qed.

(** The loop never raises; it records the calls of the rows in order and
    counts every row once. *)
Lemma import_rows_value (an_dict : dict Annotation) (rows : list (dict pyval)) :
  forall st,
    import_rows an_dict st rows
    = Ok (mkImportState
            (set_calls st ++ flat_map (row_calls an_dict) rows)
            (annotation_counter st
             + length (filter (row_updates an_dict) rows))
            (missed_annotation_counter st
             + length (filter (fun r => negb (row_updates an_dict r)) rows))).
Proof.
  induction rows as [|row rows IH]; intros st; simpl.
  - rewrite app_nil_r, !Nat.add_0_r. now destruct st.
  - rewrite import_row_value. simpl. rewrite IH.
    rewrite row_call_updates. unfold row_calls.
    destruct (row_call an_dict row); simpl.
    + rewrite <- app_assoc. simpl. f_equal. f_equal. lia.
    + f_equal. f_equal. lia.
Qed.

Lemma count_partition {A} (f : A -> bool) (l : list A) :
  length (filter f l) + length (filter (fun x => negb (f x)) l) = length l.
Proof.
  induction l as [|x l IH]; simpl; [reflexivity|].
  destruct (f x); simpl; lia.
Qed.

(** The loop of [read_annotation_csv] never raises.  A row leads to a call of [set_property_values], and is counted as
    updated, when its values cell is a string, its id cell is the UUID of an
    annotation of the collection, and it has a tag cell and a property
    cell; the call gets the values cell split at the commas.  Every other
    row, hence every row with an unknown id or with an empty values field,
    is counted as missed.  Every row is counted exactly once, and the method
    prints the number of updated rows. *)
Theorem read_annotation_csv_counts (self : AnnotationCollection)
  (annotation_table : list (dict pyval)) (push_to_gitlab : bool) :
  let an_dict := annotation_dict self in
  exists st out,
    import_loop self annotation_table = Ok st /\
    set_calls st = flat_map (row_calls an_dict) annotation_table /\
    annotation_counter st
    = length (filter (row_updates an_dict) annotation_table) /\
    missed_annotation_counter st
    = length (filter (fun r => negb (row_updates an_dict r)) annotation_table) /\
    annotation_counter st + missed_annotation_counter st
    = length annotation_table /\
    (forall row, In row annotation_table ->
                 id_is_known an_dict row = false
                 \/ dict_get row "values" = Some PNaN ->
                 row_updates an_dict row = false) /\
    read_annotation_csv self annotation_table push_to_gitlab = Ok out /\
    out_calls out = set_calls st /\
    hd "" (out_printed out)
    = ("Updated values for " ++ py_str_nat (annotation_counter st)
       ++ " annotations.")%string.
Proof.
  intros an_dict. unfold read_annotation_csv, import_loop. fold an_dict.
  rewrite import_rows_value. cbn [bind set_calls annotation_counter
                                   missed_annotation_counter app Nat.add].
  do 2 eexists. split; [reflexivity|].
  cbn [set_calls annotation_counter missed_annotation_counter out_calls
         out_printed hd].
  split; [reflexivity|]. split; [reflexivity|]. split; [reflexivity|].
  split; [apply count_partition|]. split.
  - intros row _ [H | H]; unfold row_updates.
    + rewrite H. now rewrite andb_false_r.
    + unfold values_is_string. now rewrite H.
  - split; [reflexivity|]. split; reflexivity.
Qed.

(** C8: a row with a known id and the number 5 as its values, and a row of
    a table without a tag column, are counted as missed though the id is
    known and the values field is not empty; and the number of missed rows
    is not reported: the outcome of the import of such a table is that of
    the import of an empty table. *)
Theorem read_annotation_csv_missed_rows :
  exists c,
    example_collection (Some example_annotations) "C" = Ok c /\
    Forall (fun row => id_is_known (annotation_dict c) row = true
                       /\ dict_get row "values" = Some (PNum 5))
      example_numeric_table /\
    import_loop c example_numeric_table = Ok (mkImportState [] 0 1) /\
    Forall (fun row => id_is_known (annotation_dict c) row = true
                       /\ dict_get row "values" = Some (PStr "big"))
      example_untagged_table /\
    import_loop c example_untagged_table = Ok (mkImportState [] 0 1) /\
    import_loop c [] = Ok (mkImportState [] 0 0) /\
    read_annotation_csv c example_numeric_table false
    = read_annotation_csv c [] false.
Proof.
  eexists. split; [vm_compute; reflexivity|].
  split; [repeat constructor|]. split; [reflexivity|].
  split; [repeat constructor|]. split; [reflexivity|].
  split; reflexivity.
Qed.

(** ** The CSV round trip *)

Lemma str_split_comma_free (x : string) :
  char_in comma x = false -> str_split comma x = [x].
Proof.
  induction x as [|c x IH]; [reflexivity|].
  cbn [char_in str_split].
  intros H. apply orb_false_iff in H. destruct H as [Hc Hx].
  rewrite Ascii.eqb_sym in Hc. rewrite Hc. now rewrite IH.
Qed.

Lemma str_split_app (x s : string) :
  char_in comma x = false ->
  str_split comma (x ++ String comma s) = x :: str_split comma s.
Proof.
  induction x as [|c x IH].
  - intros _. cbn [String.append str_split]. now rewrite Ascii.eqb_refl.
  - cbn [char_in String.append str_split].
    intros H. apply orb_false_iff in H. destruct H as [Hc Hx].
    rewrite Ascii.eqb_sym in Hc. rewrite Hc. now rewrite IH.
Qed.

(** Splitting the joined values gives the values back when there is a
    value and no value holds a comma. *)
Lemma str_split_join (values : list string) :
  values <> [] ->
  Forall (fun v => char_in comma v = false) values ->
  str_split comma (str_join "," values) = values.
Proof.
  induction values as [|x l IH]; intros Hne Hfree; [congruence|].
  inversion Hfree as [|? ? Hx Hl]. subst.
  destruct l as [|y l].
  - simpl. now apply str_split_comma_free.
  - change (str_join "," (x :: y :: l))
      with (x ++ String comma (str_join "," (y :: l)))%string.
    rewrite str_split_app by exact Hx.
    rewrite IH; [reflexivity | discriminate | exact Hl].
Qed.

Lemma dict_get_set_same {V} (d : dict V) (k : string) (v : V) :
  dict_get (dict_set d k v) k = Some v.
Proof.
  induction d as [|[k' v'] d IH]; simpl.
  - now rewrite String.eqb_refl.
  - destruct (String.eqb k k') eqn:E; simpl; rewrite E; [reflexivity|].
    exact IH.
Qed.

Lemma dict_get_set_other {V} (d : dict V) (k k' : string) (v : V) :
  k <> k' -> dict_get (dict_set d k v) k' = dict_get d k'.
Proof.
  intros Hne. induction d as [|[k2 v2] d IH]; simpl.
  - destruct (String.eqb k' k) eqn:E; [|reflexivity].
    apply String.eqb_eq in E. congruence.
  - destruct (String.eqb k k2) eqn:E; simpl.
    + apply String.eqb_eq in E. subst.
      destruct (String.eqb k' k2) eqn:E2; [|reflexivity].
      apply String.eqb_eq in E2. congruence.
    + now rewrite IH.
Qed.

(** [annotation_dict] maps the UUID of every annotation of the collection
    to an annotation of that UUID. *)
Lemma annotation_dict_fold (l : list Annotation) :
  forall d : dict Annotation,
    (forall k a, dict_get d k = Some a -> uuid a = k) ->
    (forall k a,
        dict_get (fold_left (fun d an => dict_set d (uuid an) an) l d) k
        = Some a -> uuid a = k) /\
    (forall k,
        dict_get d k <> None \/ (exists an, In an l /\ uuid an = k) ->
        dict_get (fold_left (fun d an => dict_set d (uuid an) an) l d) k
        <> None).
Proof.
  induction l as [|x l IH]; intros d Hd; simpl.
  - split; [exact Hd|]. intros k [H | [an [[] _]]]. exact H.
  - assert (Hd' : forall k a,
               dict_get (dict_set d (uuid x) x) k = Some a -> uuid a = k).
    { intros k a. destruct (string_dec (uuid x) k) as [Heq | Hne].
      - subst. rewrite dict_get_set_same. intros H. now inversion H.
      - rewrite dict_get_set_other by exact Hne. apply Hd. }
    destruct (IH _ Hd') as [H1 H2]. split; [exact H1|].
    intros k Hk. apply H2.
    destruct (string_dec (uuid x) k) as [Heq | Hne].
    + left. subst. rewrite dict_get_set_same. discriminate.
    + rewrite dict_get_set_other by exact Hne.
      destruct Hk as [Hk | [an [[Hx | Han] Hu]]].
      * now left.
      * subst. congruence.
      * right. now exists an.
Qed.

Lemma annotation_dict_lookup (self : AnnotationCollection) (an : Annotation) :
  In an (ac_annotations self) ->
  exists target,
    dict_get (annotation_dict self) (uuid an) = Some target /\
    uuid target = uuid an.
Proof.
  intros Hin. unfold annotation_dict.
  destruct (annotation_dict_fold (ac_annotations self) [])
    as [H1 H2]; [intros k a; discriminate|].
  assert (H3 : dict_get
                 (fold_left (fun d a => dict_set d (uuid a) a)
                    (ac_annotations self) []) (uuid an) <> None).
  { apply H2. right. now exists an. }
  destruct (dict_get
              (fold_left (fun d a => dict_set d (uuid a) a)
                 (ac_annotations self) []) (uuid an))
    as [target|] eqn:E; [|congruence].
  exists target. split; [reflexivity|]. now apply H1.
Qed.

Lemma export_row_written (self : AnnotationCollection) (tags : tags_arg)
  (property : string) (an : Annotation) (prop : string) :
  In an (ac_annotations self) ->
  In prop (dict_keys (properties an)) ->
  exports self tags property an prop = true ->
  In (export_row self an prop) (annotation_output self tags property false).
Proof.
  intros Han Hprop Hexp. unfold exports in Hexp.
  apply andb_true_iff in Hexp. destruct Hexp as [Htags Hsel].
  unfold annotation_output. apply in_flat_map. exists an. split.
  - destruct (tags_is_all tags); [exact Han|].
    apply filter_In. split; [exact Han | exact Htags].
  - apply in_flat_map. exists prop. split; [exact Hprop|].
    rewrite Hsel. now left.
Qed.

Lemma cell_reads_spec (written : dict string) (row : dict pyval)
  (label : string) :
  cell_reads written row label = true ->
  exists s,
    dict_get written label = Some s /\ dict_get row label = Some (PStr s).
Proof.
  unfold cell_reads.
  destruct (dict_get written label) as [s|]; [|discriminate].
  destruct (dict_get row label) as [[t | | z]|]; try discriminate.
  intros H. apply String.eqb_eq in H. subst. now exists t.
Qed.

Lemma export_row_fields (self : AnnotationCollection) (an : Annotation)
  (prop : string) :
  dict_get (export_row self an prop) "id" = Some (uuid an) /\
  dict_get (export_row self an prop) "tag" = Some (tag_name (tag an)) /\
  dict_get (export_row self an prop) "property" = Some prop /\
  dict_get (export_row self an prop) "values"
  = Some (str_join "," (item_value (properties an) prop)).
Proof. repeat split; reflexivity. Qed.

(** The cells of a row of the table that gives a record of the export
    back. *)
Lemma read_as_written_cells (self : AnnotationCollection) (an : Annotation)
  (prop : string) (row : dict pyval) :
  read_as_written (export_row self an prop) row = true ->
  dict_get row "id" = Some (PStr (uuid an)) /\
  dict_get row "tag" = Some (PStr (tag_name (tag an))) /\
  dict_get row "property" = Some (PStr prop) /\
  dict_get row "values"
  = Some (PStr (str_join "," (item_value (properties an) prop))).
Proof.
  unfold read_as_written. cbn [forallb]. rewrite andb_true_r.
  intros H. apply andb_true_iff in H. destruct H as [Hid H].
  apply andb_true_iff in H. destruct H as [Htag H].
  apply andb_true_iff in H. destruct H as [Hprop Hval].
  destruct (export_row_fields self an prop) as [E1 [E2 [E3 E4]]].
  apply cell_reads_spec in Hid, Htag, Hprop, Hval.
  destruct Hid as [s1 [W1 R1]]. destruct Htag as [s2 [W2 R2]].
  destruct Hprop as [s3 [W3 R3]]. destruct Hval as [s4 [W4 R4]].
  rewrite E1 in W1. rewrite E2 in W2. rewrite E3 in W3. rewrite E4 in W4.
  inversion W1. inversion W2. inversion W3. inversion W4. subst.
  repeat split; assumption.
Qed.

(** Splitting at the commas gives one piece more than there are commas. *)
Lemma str_split_length (s : string) :
  length (str_split comma s) = S (count_char comma s).
Proof.
  induction s as [|c s IH]; [reflexivity|].
  cbn [str_split count_char]. destruct (Ascii.eqb c comma).
  - cbn [length]. now rewrite IH.
  - destruct (str_split comma s) as [|w ws]; [discriminate IH | exact IH].
Qed.

Lemma count_char_app (c : ascii) (a b : string) :
  count_char c (a ++ b) = count_char c a + count_char c b.
Proof.
  induction a as [|d a IH]; [reflexivity|].
  cbn [String.append count_char]. rewrite IH. lia.
Qed.

Lemma count_char_in (c : ascii) (s : string) :
  char_in c s = true -> 1 <= count_char c s.
Proof.
  induction s as [|d s IH]; [discriminate|].
  cbn [char_in count_char]. rewrite (Ascii.eqb_sym c d).
  destruct (Ascii.eqb d c); [lia|]. cbn [orb]. intros H. apply IH in H. lia.
Qed.

(** The commas of the joined values: those of the values and one between
    any two values. *)
Lemma count_char_join (values : list string) :
  values <> [] ->
  S (count_char comma (str_join "," values))
  = list_sum (map (count_char comma) values) + length values.
Proof.
  induction values as [|x l IH]; intros Hne; [congruence|].
  destruct l as [|y l].
  - cbn [str_join map list_sum fold_right length]. lia.
  - change (str_join "," (x :: y :: l))
      with (x ++ String comma (str_join "," (y :: l)))%string.
    rewrite count_char_app.
    change (count_char comma (String comma (str_join "," (y :: l))))
      with (S (count_char comma (str_join "," (y :: l)))).
    rewrite IH by discriminate.
    change (list_sum (map (count_char comma) (x :: y :: l)))
      with (count_char comma x + list_sum (map (count_char comma) (y :: l))).
    change (length (x :: y :: l)) with (S (length (y :: l))). lia.
Qed.

(** Splitting the joined values gives more values than were joined as soon
    as a value holds a comma. *)
Lemma str_split_join_longer (values : list string) :
  Exists (fun v => char_in comma v = true) values ->
  length values < length (str_split comma (str_join "," values)).
Proof.
  intros Hex. rewrite str_split_length, count_char_join.
  - assert (H : 1 <= list_sum (map (count_char comma) values)).
    { induction Hex as [v l Hv | v l _ IH].
      - apply count_char_in in Hv. cbn [map list_sum fold_right]. lia.
      - cbn [map list_sum fold_right]. fold (list_sum (map (count_char comma) l)).
        lia. }
    lia.
  - intros ->. inversion Hex.
Qed.

(** C2: a property of an annotation that the export covers is written as a
    row of the file.  When its joined values are not empty and the table
    read from the file holds a row that gives the id, tag, property and
    values fields of that row back as the strings written, the import calls
    [set_property_values] on an annotation of that id with the joined
    values split at the commas, and that call is among the calls of the
    import of the whole table.  The values handed over are exactly the
    exported ones when no value holds a comma, and they are more than the
    exported ones when a value holds a comma. *)
Theorem csv_round_trip_values (self : AnnotationCollection) (tags : tags_arg)
  (property : string) (an : Annotation) (prop : string)
  (values : list string) (annotation_table : list (dict pyval))
  (row : dict pyval) :
  In an (ac_annotations self) ->
  dict_get (properties an) prop = Some values ->
  exports self tags property an prop = true ->
  str_join "," values <> "" ->
  In row annotation_table ->
  read_as_written (export_row self an prop) row = true ->
  exists target call out,
    In (export_row self an prop) (annotation_output self tags property false) /\
    uuid target = uuid an /\
    call = mkSetCall target (PStr (tag_name (tag an))) (PStr prop)
             (str_split comma (str_join "," values)) /\
    import_try (annotation_dict self) row = Ok (Some call) /\
    read_annotation_csv self annotation_table false = Ok out /\
    In call (out_calls out) /\
    (Forall (fun v => char_in comma v = false) values ->
     call_value call = values) /\
    (Exists (fun v => char_in comma v = true) values ->
     length values < length (call_value call)).
Proof.
  intros Han Hget Hexp Hne Hin Hread.
  assert (Hitem : item_value (properties an) prop = values)
    by (unfold item_value; now rewrite Hget).
  assert (Hrow : In (export_row self an prop)
                   (annotation_output self tags property false)).
  { apply export_row_written; [exact Han | | exact Hexp].
    apply dict_get_in in Hget. apply in_map_iff. now exists (prop, values). }
  destruct (annotation_dict_lookup self an Han) as [target [Htarget Huuid]].
  destruct (read_as_written_cells self an prop row Hread)
    as [Hid [Htag [Hprop Hval]]].
  rewrite Hitem in Hval.
  assert (Hcall : row_call (annotation_dict self) row
                  = Some (mkSetCall target (PStr (tag_name (tag an)))
                            (PStr prop)
                            (str_split comma (str_join "," values)))).
  { unfold row_call. rewrite Hval, Hid, Htag, Hprop, Htarget. reflexivity. }
  exists target. eexists. eexists.
  split; [exact Hrow|]. split; [exact Huuid|]. split; [reflexivity|].
  split; [|split; [|split; [|split]]].
  - unfold import_try, an_dict_item, dict_item.
    rewrite Hval. cbn [bind]. rewrite Hid. cbn [bind]. rewrite Htarget.
    cbn [bind]. rewrite Htag, Hprop. reflexivity.
  - unfold read_annotation_csv, import_loop. rewrite import_rows_value.
    reflexivity.
  - cbn [out_calls set_calls app]. apply in_flat_map.
    exists row. split; [exact Hin|].
    unfold row_calls. rewrite Hcall. now left.
  - intros Hfree. cbn [call_value]. apply str_split_join; [|exact Hfree].
    intros ->. now apply Hne.
  - intros Hex. cbn [call_value]. now apply str_split_join_longer.
Qed.

Lemma example_ac_built :
  example_collection (Some example_annotations) "C" = Ok example_ac.
Proof. vm_compute. reflexivity. Qed.

Lemma csv_round_trip_values_witness :
  let an := example_annotation "U1" example_tag
              [("color", ["red"; "blue"]); ("size", [])] 0 in
  let row := [ ("id", PStr "U1"); ("annotation_collection", PStr "Collection");
               ("text", PStr "some text"); ("tag", PStr "Hero");
               ("property", PStr "color"); ("values", PStr "red,blue") ] in
  exists target call out,
    In (export_row example_ac an "color")
       (annotation_output example_ac (TagsStr "all") "all" false) /\
    uuid target = uuid an /\
    call = mkSetCall target (PStr (tag_name (tag an))) (PStr "color")
             (str_split comma (str_join "," ["red"; "blue"])) /\
    import_try (annotation_dict example_ac) row = Ok (Some call) /\
    read_annotation_csv example_ac example_file_table false = Ok out /\
    In call (out_calls out) /\
    (Forall (fun v => char_in comma v = false) ["red"; "blue"] ->
     call_value call = ["red"; "blue"]) /\
    (Exists (fun v => char_in comma v = true) ["red"; "blue"] ->
     length ["red"; "blue"] < length (call_value call)).
Proof.
  intros an row.
  apply (csv_round_trip_values example_ac (TagsStr "all") "all" an "color"
           ["red"; "blue"] example_file_table row).
  - vm_compute. left. reflexivity.
  - reflexivity.
  - vm_compute. reflexivity.
  - vm_compute. discriminate.
  - left. reflexivity.
  - vm_compute. reflexivity.
Defined.

(** C2, as the specification has it: the value "a,b" of the property mood
    is exported in the row of U2 as the non-empty field a,b; the table read
    from the unmodified file gives that row back as written, and its import
    hands the two values "a" and "b" to [set_property_values].  And the
    value "5", exported as the non-empty field 5 of a file whose values are
    all numbers, leads to no call at all. *)
Lemma csv_round_trip_comma_value :
  (exists an out,
      In an (ac_annotations example_ac) /\
      uuid an = "U2" /\
      dict_get (properties an) "mood" = Some ["a,b"] /\
      snd (write_annotation_csv example_ac (TagsStr "all") "all" false "out")
      = map (fun l => (l ++ String newline "")%string)
          [ "id;annotation_collection;text;tag;property;values";
            "U1;Collection;some text;Hero;color;red,blue";
            "U1;Collection;some text;Hero;size;";
            "U3;Collection;some text;Hero;size;big";
            "U2;Collection;some text;Setting;mood;a,b" ] /\
      nth_error (annotation_output example_ac (TagsStr "all") "all" false) 3
      = Some (export_row example_ac an "mood") /\
      dict_get (export_row example_ac an "mood") "values" = Some "a,b" /\
      map (fun p => read_as_written (fst p) (snd p))
        (combine (annotation_output example_ac (TagsStr "all") "all" false)
           example_file_table)
      = [true; false; true; true] /\
      read_annotation_csv example_ac example_file_table false = Ok out /\
      map (fun call =>
             (uuid (call_target call), call_prop call, call_value call))
        (out_calls out)
      = [ ("U1", PStr "color", ["red"; "blue"]);
          ("U3", PStr "size", ["big"]);
          ("U2", PStr "mood", ["a"; "b"]) ]) /\
  (exists an out,
      ac_annotations example_numeric_ac = [an] /\
      dict_get (properties an) "size" = Some ["5"] /\
      annotation_output example_numeric_ac (TagsStr "all") "all" false
      = [export_row example_numeric_ac an "size"] /\
      dict_get (export_row example_numeric_ac an "size") "values" = Some "5" /\
      snd (write_annotation_csv example_numeric_ac (TagsStr "all") "all" false
             "out")
      = map (fun l => (l ++ String newline "")%string)
          [ "id;annotation_collection;text;tag;property;values";
            "U5;Collection;some text;Hero;size;5" ] /\
      read_annotation_csv example_numeric_ac example_numeric_file_table false
      = Ok out /\
      out_calls out = []).
Proof.
  split.
  - exists (example_annotation "U2" example_root_tag [("mood", ["a,b"])] 20).
    eexists.
    split; [vm_compute; right; right; left; reflexivity|].
    split; [reflexivity|]. split; [reflexivity|].
    split; [vm_compute; reflexivity|].
    split; [vm_compute; reflexivity|].
    split; [reflexivity|].
    split; [vm_compute; reflexivity|].
    split; [vm_compute; reflexivity|].
    vm_compute. reflexivity.
  - do 2 eexists.
    split; [vm_compute; reflexivity|].
    split; [reflexivity|]. split; [vm_compute; reflexivity|].
    split; [reflexivity|].
    split; [vm_compute; reflexivity|].
    split; [vm_compute; reflexivity|]. reflexivity.
Qed.

(** * Further properties *)

(** ** clean_text_in_ac_df *)

Lemma has_double_space_cons (c : ascii) (t : string) :
  has_double_space (String c t)
  = (Ascii.eqb c space
     && match t with
        | String d _ => Ascii.eqb d space
        | EmptyString => false
        end)
    || has_double_space t.
Proof.
  unfold has_double_space, space.
  destruct t as [|d t]; cbn [str_in starts_with];
    rewrite (Ascii.eqb_sym c); [reflexivity|].
  now rewrite (Ascii.eqb_sym d), andb_true_r.
Qed.

Lemma collapse_spaces_cons (c d : ascii) (t : string) :
  collapse_spaces (String c (String d t))
  = if Ascii.eqb c space && Ascii.eqb d space
    then collapse_spaces (String d t)
    else String c (collapse_spaces (String d t)).
Proof. reflexivity. Qed.

Lemma collapse_spaces_head (t : string) :
  forall c, exists t', collapse_spaces (String c t) = String c t'.
Proof.
  induction t as [|d t IH]; intros c.
  - now exists EmptyString.
  - rewrite collapse_spaces_cons.
    destruct (Ascii.eqb c space) eqn:Ec, (Ascii.eqb d space) eqn:Ed;
      cbn [andb]; try (eexists; reflexivity).
    apply Ascii.eqb_eq in Ec, Ed. subst. apply IH.
Qed.

Lemma collapse_spaces_no_double (s : string) :
  has_double_space (collapse_spaces s) = false.
Proof.
  induction s as [|c t IH]; [reflexivity|].
  destruct t as [|d t].
  { cbn [collapse_spaces]. rewrite has_double_space_cons.
    now rewrite andb_false_r. }
  rewrite collapse_spaces_cons.
  destruct (Ascii.eqb c space && Ascii.eqb d space) eqn:E; [exact IH|].
  destruct (collapse_spaces_head t d) as [t' Ht'].
  rewrite has_double_space_cons, IH, Ht', E. reflexivity.
Qed.

Lemma char_in_collapse_spaces (a : ascii) (s : string) :
  char_in a (collapse_spaces s) = true -> char_in a s = true.
Proof.
  induction s as [|c t IH]; [discriminate|].
  destruct t as [|d t]; [trivial|].
  rewrite collapse_spaces_cons.
  destruct (Ascii.eqb c space && Ascii.eqb d space).
  - intros H. apply IH in H. cbn [char_in] in *. rewrite H.
    apply orb_true_r.
  - cbn [char_in]. intros H. apply orb_true_iff in H.
    destruct H as [H | H]; [now rewrite H|].
    apply IH in H. cbn [char_in] in H. rewrite H. apply orb_true_r.
Qed.

Lemma newlines_to_spaces_no_newline (s : string) :
  char_in newline (newlines_to_spaces s) = false.
Proof.
  induction s as [|c s IH]; [reflexivity|].
  cbn [newlines_to_spaces char_in]. rewrite IH, orb_false_r.
  destruct (Ascii.eqb c newline) eqn:E; [reflexivity|].
  now rewrite Ascii.eqb_sym.
Qed.

Lemma newlines_to_spaces_fixed (s : string) :
  char_in newline s = false -> newlines_to_spaces s = s.
Proof.
  induction s as [|c s IH]; [reflexivity|].
  cbn [newlines_to_spaces char_in]. intros H.
  apply orb_false_iff in H. destruct H as [Hc Hs].
  rewrite Ascii.eqb_sym in Hc. rewrite Hc. now rewrite IH.
Qed.

Lemma collapse_spaces_fixed (s : string) :
  has_double_space s = false -> collapse_spaces s = s.
Proof.
  induction s as [|c t IH]; [reflexivity|].
  destruct t as [|d t]; [reflexivity|].
  rewrite has_double_space_cons, collapse_spaces_cons. intros H.
  apply orb_false_iff in H. destruct H as [Hcd Ht].
  rewrite Hcd. now rewrite IH.
Qed.

Lemma clean_text_no_newline (s : string) :
  char_in newline (clean_text_in_ac_df s) = false.
Proof.
  unfold clean_text_in_ac_df.
  destruct (char_in newline (collapse_spaces (newlines_to_spaces s)))
    eqn:E; [|reflexivity].
  apply char_in_collapse_spaces in E.
  now rewrite newlines_to_spaces_no_newline in E.
Qed.

Lemma clean_text_no_double_space (s : string) :
  has_double_space (clean_text_in_ac_df s) = false.
Proof. unfold clean_text_in_ac_df. apply collapse_spaces_no_double. Qed.

(** X1: the cleaned text holds no line break and no two spaces in a row. *)
Theorem clean_text_normalized (annotation : string) :
  char_in newline (clean_text_in_ac_df annotation) = false /\
  has_double_space (clean_text_in_ac_df annotation) = false.
Proof.
  split; [apply clean_text_no_newline | apply clean_text_no_double_space].
Qed.

(** X2: the texts that cleaning leaves unchanged are exactly those without
    a line break and without two spaces in a row; hence cleaning twice is
    cleaning once. *)
Theorem clean_text_fixed_points (annotation : string) :
  (clean_text_in_ac_df annotation = annotation
   <-> char_in newline annotation = false
       /\ has_double_space annotation = false) /\
  clean_text_in_ac_df (clean_text_in_ac_df annotation)
  = clean_text_in_ac_df annotation.
Proof.
  assert (Hfix : forall s, char_in newline s = false ->
                           has_double_space s = false ->
                           clean_text_in_ac_df s = s).
  { intros s Hn Hd. unfold clean_text_in_ac_df.
    rewrite newlines_to_spaces_fixed by exact Hn.
    now apply collapse_spaces_fixed. }
  split; [split|].
  - intros H. rewrite <- H.
    split; [apply clean_text_no_newline | apply clean_text_no_double_space].
  - intros [Hn Hd]. now apply Hfix.
  - apply Hfix; [apply clean_text_no_newline | apply clean_text_no_double_space].
Qed.

Lemma char_in_blanks (c : ascii) :
  char_in c blanks = Ascii.eqb c space || Ascii.eqb c newline.
Proof. unfold blanks. cbn [char_in]. now rewrite orb_false_r. Qed.

Lemma delete_blanks_cons (c : ascii) (s : string) :
  str_delete_chars blanks (String c s)
  = if Ascii.eqb c space || Ascii.eqb c newline
    then str_delete_chars blanks s
    else String c (str_delete_chars blanks s).
Proof. cbn [str_delete_chars]. now rewrite char_in_blanks. Qed.

Lemma delete_blanks_newlines_to_spaces (s : string) :
  str_delete_chars blanks (newlines_to_spaces s) = str_delete_chars blanks s.
Proof.
  induction s as [|c s IH]; [reflexivity|].
  cbn [newlines_to_spaces].
  destruct (Ascii.eqb c newline) eqn:E; rewrite !delete_blanks_cons, IH, ?E.
  - rewrite Ascii.eqb_refl. now rewrite orb_true_r.
  - reflexivity.
Qed.

Lemma delete_blanks_collapse_spaces (s : string) :
  str_delete_chars blanks (collapse_spaces s) = str_delete_chars blanks s.
Proof.
  induction s as [|c t IH]; [reflexivity|].
  destruct t as [|d t]; [reflexivity|].
  rewrite collapse_spaces_cons.
  destruct (Ascii.eqb c space) eqn:Ec.
  - destruct (Ascii.eqb d space) eqn:Ed; cbn [andb].
    + rewrite IH. rewrite (delete_blanks_cons c). now rewrite Ec.
    + rewrite !(delete_blanks_cons c), Ec. cbn [orb]. exact IH.
  - cbn [andb]. rewrite !(delete_blanks_cons c), Ec, IH. reflexivity.
Qed.

(** X3: cleaning changes blanks only: once the spaces and line breaks are
    deleted, the cleaned text and the text are the same. *)
Theorem clean_text_keeps_text (annotation : string) :
  str_delete_chars blanks (clean_text_in_ac_df annotation)
  = str_delete_chars blanks annotation.
Proof.
  unfold clean_text_in_ac_df.
  now rewrite delete_blanks_collapse_spaces, delete_blanks_newlines_to_spaces.
Qed.

(** ** ac_to_df *)

Lemma clean_cells {A} (f : A -> string) (l : list A) :
  Forall clean_cell (map (fun a => CStr (clean_text_in_ac_df (f a))) l).
Proof.
  apply Forall_forall. intros c Hc. apply in_map_iff in Hc.
  destruct Hc as [a [Heq _]]. subst. eexists. split; [reflexivity|].
  split; [apply clean_text_no_newline | apply clean_text_no_double_space].
Qed.

(** X4: in the table the columns [left_context], [annotation] and
    [right_context] hold, row by row, the cleaned context and text of the
    annotations, so no cell of them has a line break or two spaces in a
    row; the other text columns, such as [tag_path], are taken as they
    are. *)
Theorem ac_to_df_text_columns (annotations : list Annotation)
  (text_title name : string) (df : DataFrame) :
  Forall annotation_wf annotations ->
  ac_to_df annotations text_title name = Ok df ->
  df_get df "left_context"
  = Ok (map (fun a => CStr (clean_text_in_ac_df (pretext a))) annotations) /\
  df_get df "annotation"
  = Ok (map (fun a => CStr (clean_text_in_ac_df (text a))) annotations) /\
  df_get df "right_context"
  = Ok (map (fun a => CStr (clean_text_in_ac_df (posttext a))) annotations) /\
  (forall label col,
      In label ["left_context"; "annotation"; "right_context"] ->
      df_get df label = Ok col -> Forall clean_cell col) /\
  df_get df "tag_path"
  = Ok (map (fun a => CStr (tag_full_path (tag a))) annotations).
Proof.
  intros Hwf Hdf. rewrite ac_to_df_value in Hdf by exact Hwf.
  injection Hdf as <-.
  split; [reflexivity|]. split; [reflexivity|]. split; [reflexivity|].
  split; [|reflexivity].
  intros label col Hlabel Hcol.
  destruct Hlabel as [<- | [<- | [<- | []]]]; injection Hcol as <-;
    apply clean_cells.
Qed.

Lemma ac_to_df_text_columns_witness :
  exists df,
    ac_to_df example_annotations "Title" "Collection" = Ok df /\
    df_get df "left_context"
    = Ok (map (fun a => CStr (clean_text_in_ac_df (pretext a)))
            example_annotations) /\
    df_get df "annotation"
    = Ok (map (fun a => CStr (clean_text_in_ac_df (text a)))
            example_annotations) /\
    df_get df "right_context"
    = Ok (map (fun a => CStr (clean_text_in_ac_df (posttext a)))
            example_annotations) /\
    (forall label col,
        In label ["left_context"; "annotation"; "right_context"] ->
        df_get df label = Ok col -> Forall clean_cell col) /\
    df_get df "tag_path"
    = Ok (map (fun a => CStr (tag_full_path (tag a))) example_annotations).
Proof.
  eexists. split; [vm_compute; reflexivity|].
  apply (ac_to_df_text_columns example_annotations "Title" "Collection").
  - exact example_annotations_wf.
  - vm_compute. reflexivity.
Defined.

(** *** The order of the property columns *)

Lemma distinct_app (a b : list string) :
  distinct (a ++ b)
  = distinct a ++ filter (fun u => negb (key_in u a)) (distinct b).
Proof.
  induction a as [|x a IH]; simpl.
  - symmetry. apply forallb_filter_id. now apply forallb_forall.
  - f_equal. rewrite IH, filter_app, filter_twice. f_equal.
    apply filter_ext. intros u. symmetry. apply negb_orb.
Qed.

Lemma distinct_NoDup_id (l : list string) : NoDup l -> distinct l = l.
Proof.
  induction 1 as [|x l Hx Hl IH]; simpl; [reflexivity|].
  rewrite IH. f_equal. apply forallb_filter_id. apply forallb_forall.
  intros u Hu. destruct (String.eqb u x) eqn:E; [|reflexivity].
  apply String.eqb_eq in E. subst. now apply Hx in Hu.
Qed.

Lemma key_in_filter (u : string) (f : string -> bool) (l : list string) :
  key_in u (filter f l) = key_in u l && f u.
Proof.
  induction l as [|x l IH]; [reflexivity|].
  cbn [filter]. destruct (f x) eqn:Ef.
  - unfold key_in in *. cbn [existsb]. rewrite IH.
    destruct (String.eqb u x) eqn:E; [|reflexivity].
    apply String.eqb_eq in E. subst. now rewrite Ef.
  - unfold key_in in *. cbn [existsb]. rewrite IH.
    destruct (String.eqb u x) eqn:E; [|reflexivity].
    apply String.eqb_eq in E. subst. rewrite Ef. now rewrite andb_false_r.
Qed.

(** The names seen are the keys of all annotations, one after the other,
    each kept where it is first met. *)
Lemma seen_from_distinct (items : list properties_t) :
  forall seen,
    Forall dict_wf items ->
    seen_from seen items
    = seen ++ filter (fun u => negb (key_in u seen))
                (distinct (flat_map dict_keys items)).
Proof.
  induction items as [|item items IH]; intros seen Hwf; simpl.
  - now rewrite app_nil_r.
  - inversion Hwf as [|? ? Hitem Hrest]. subst.
    rewrite IH by exact Hrest. rewrite <- app_assoc. f_equal.
    rewrite distinct_app, filter_app.
    rewrite (distinct_NoDup_id _ Hitem). f_equal.
    rewrite filter_twice. apply filter_ext. intros u.
    rewrite key_in_app, key_in_filter.
    destruct (key_in u seen), (key_in u (dict_keys item)); reflexivity.
Qed.

(** X5: the labels of the table are the eleven fixed labels followed by one
    [prop:] label per property name, in the order in which the names are
    first met when the annotations are read one after the other. *)
Theorem ac_to_df_column_order (annotations : list Annotation)
  (text_title name : string) (df : DataFrame) :
  Forall annotation_wf annotations ->
  ac_to_df annotations text_title name = Ok df ->
  df_column_labels df
  = [ "document"; "annotation collection"; "annotator"; "tag"; "tag_path";
      "left_context"; "annotation"; "right_context"; "start_point";
      "end_point"; "date" ]
    ++ map (fun k => ("prop:" ++ k)%string)
         (distinct (flat_map (fun a => dict_keys (properties a)) annotations)).
Proof.
  intros Hwf Hdf. rewrite (ac_to_df_labels _ _ _ _ Hwf Hdf).
  f_equal. f_equal. unfold seen_keys.
  rewrite seen_from_distinct by (apply Forall_map; exact Hwf).
  cbn [app]. rewrite flat_map_concat_map, map_map, <- flat_map_concat_map.
  apply forallb_filter_id. now apply forallb_forall.
Qed.

Lemma ac_to_df_column_order_witness :
  exists df,
    ac_to_df example_annotations "Title" "Collection" = Ok df /\
    df_column_labels df
    = [ "document"; "annotation collection"; "annotator"; "tag"; "tag_path";
        "left_context"; "annotation"; "right_context"; "start_point";
        "end_point"; "date" ]
      ++ map (fun k => ("prop:" ++ k)%string)
           (distinct (flat_map (fun a => dict_keys (properties a))
                        example_annotations)).
Proof.
  eexists. split; [vm_compute; reflexivity|].
  apply (ac_to_df_column_order example_annotations "Title" "Collection").
  - exact example_annotations_wf.
  - vm_compute. reflexivity.
Defined.

(** ** most_common_token: further properties *)

Lemma char_in_delete_chars (c : ascii) (deleted s : string) :
  char_in c (str_delete_chars deleted s)
  = char_in c s && negb (char_in c deleted).
Proof.
  induction s as [|d s IH]; [reflexivity|].
  cbn [str_delete_chars char_in].
  destruct (char_in d deleted) eqn:Ed; cbn [char_in]; rewrite IH.
  - destruct (Ascii.eqb c d) eqn:E; [|reflexivity].
    apply Ascii.eqb_eq in E. subst. rewrite Ed. cbn.
    now rewrite andb_false_r.
  - destruct (Ascii.eqb c d) eqn:E; [|reflexivity].
    apply Ascii.eqb_eq in E. subst. now rewrite Ed.
Qed.

Lemma str_split_nonempty (sep : ascii) (s : string) : str_split sep s <> [].
Proof.
  destruct s as [|c s]; cbn [str_split]; [discriminate|].
  destruct (Ascii.eqb c sep); [discriminate|].
  destruct (str_split sep s); discriminate.
Qed.

(** The pieces of a split hold no separator and only characters of the
    text. *)
Lemma str_split_pieces (sep : ascii) (s : string) :
  forall w, In w (str_split sep s) ->
            char_in sep w = false /\
            forall c, char_in c w = true -> char_in c s = true.
Proof.
  induction s as [|c s IH]; intros w Hw.
  - destruct Hw as [<- | []]. split; [reflexivity | trivial].
  - cbn [str_split] in Hw. destruct (Ascii.eqb c sep) eqn:E.
    + destruct Hw as [<- | Hw]; [split; [reflexivity | discriminate]|].
      destruct (IH w Hw) as [H1 H2]. split; [exact H1|].
      intros a Ha. cbn [char_in]. rewrite (H2 a Ha). apply orb_true_r.
    + destruct (str_split sep s) as [|w0 ws] eqn:Es.
      * now apply str_split_nonempty in Es.
      * destruct Hw as [<- | Hw].
        -- destruct (IH w0 (or_introl eq_refl)) as [H1 H2]. split.
           ++ cbn [char_in]. rewrite H1. rewrite Ascii.eqb_sym, E.
              reflexivity.
           ++ intros a. cbn [char_in]. intros Ha.
              apply orb_true_iff in Ha. destruct Ha as [Ha | Ha].
              ** now rewrite Ha.
              ** rewrite (H2 a Ha). apply orb_true_r.
        -- destruct (IH w (or_intror Hw)) as [H1 H2]. split; [exact H1|].
           intros a Ha. cbn [char_in]. rewrite (H2 a Ha). apply orb_true_r.
Qed.

Lemma spec_tokens_clean (texts : list string)
  (stopwords : option (list string)) (t : string) :
  In t (spec_tokens texts stopwords) ->
  t <> "" /\
  char_in space t = false /\
  (forall c, char_in c punctuation = true -> char_in c t = false) /\
  (forall l, stopwords = Some l -> ~ In t l).
Proof.
  unfold spec_tokens. intros H.
  apply filter_In in H. destruct H as [H Hstop].
  apply filter_In in H. destruct H as [H Hne].
  apply in_flat_map in H. destruct H as [s [_ Hs]].
  destruct (str_split_pieces space _ t Hs) as [Hsp Hsub].
  split; [|split; [exact Hsp|split]].
  - intros ->. discriminate.
  - intros c Hc. destruct (char_in c t) eqn:E; [|reflexivity].
    apply Hsub in E. rewrite char_in_delete_chars, Hc in E.
    now rewrite andb_false_r in E.
  - intros l -> Hin. apply key_in_true in Hin. now rewrite Hin in Hstop.
Qed.

Lemma frequency_positive (t : string) (tokens : list string) :
  In t tokens -> 1 <= frequency t tokens.
Proof. intros H. unfold frequency. now apply count_occ_In. Qed.

Lemma most_common_token_entries (texts : list string)
  (stopwords : option (list string)) (ranking : Z) (t : string) (n : nat) :
  In (t, n) (most_common_token texts stopwords ranking) ->
  In t (spec_tokens texts stopwords)
  /\ n = frequency t (spec_tokens texts stopwords).
Proof.
  rewrite most_common_token_tokens. unfold most_common. intros H.
  destruct (ranking_of_tokens (spec_tokens texts stopwords)) as [Hin _].
  apply Hin. rewrite <- (firstn_skipn (Z.to_nat ranking)).
  apply in_app_iff. now left.
Qed.

(** X6: no key of the result is empty, holds a space or a punctuation
    character, or is one of the stopwords; and every count is at least
    one. *)
Theorem most_common_token_keys (texts : list string)
  (stopwords : option (list string)) (ranking : Z) (t : string) (n : nat) :
  In (t, n) (most_common_token texts stopwords ranking) ->
  t <> "" /\
  char_in space t = false /\
  (forall c, char_in c punctuation = true -> char_in c t = false) /\
  (forall l, stopwords = Some l -> ~ In t l) /\
  1 <= n.
Proof.
  intros H. apply most_common_token_entries in H. destruct H as [Ht Hn].
  destruct (spec_tokens_clean _ _ _ Ht) as [H1 [H2 [H3 H4]]].
  repeat (split; [assumption|]). subst. now apply frequency_positive.
Qed.

Lemma most_common_token_keys_witness :
  "b" <> "" /\
  char_in space "b" = false /\
  (forall c, char_in c punctuation = true -> char_in c "b" = false) /\
  (forall l, Some ["the"] = Some l -> ~ In "b" l) /\
  1 <= 3.
Proof.
  apply (most_common_token_keys ["a b, b"; "the b c!"] (Some ["the"]) 2).
  vm_compute. left. reflexivity.
Defined.

(** X7: a smaller ranking gives the first entries of the result of a larger
    one, and a ranking of zero or less gives the empty dict. *)
Theorem most_common_token_prefix (texts : list string)
  (stopwords : option (list string)) (ranking ranking' : Z) :
  (ranking <= ranking')%Z ->
  most_common_token texts stopwords ranking
  = firstn (Z.to_nat ranking) (most_common_token texts stopwords ranking') /\
  ((ranking <= 0)%Z -> most_common_token texts stopwords ranking = []).
Proof.
  intros Hle. rewrite !most_common_token_tokens. unfold most_common. split.
  - rewrite firstn_firstn. f_equal. lia.
  - intros H0. replace (Z.to_nat ranking) with 0 by lia. reflexivity.
Qed.

Lemma most_common_token_prefix_witness :
  most_common_token ["a b b"; "b c"] None 1
  = firstn (Z.to_nat 1) (most_common_token ["a b b"; "b c"] None 3) /\
  ((1 <= 0)%Z -> most_common_token ["a b b"; "b c"] None 1 = []).
Proof.
  apply (most_common_token_prefix ["a b b"; "b c"] None 1 3). lia.
Defined.

Lemma list_sum_perm (l l' : list nat) :
  Permutation l l' -> list_sum l = list_sum l'.
Proof.
  induction 1; simpl; lia.
Qed.

Lemma list_sum_firstn (n : nat) (l : list nat) :
  list_sum (firstn n l) <= list_sum l.
Proof.
  revert n. induction l as [|x l IH]; intros [|n]; simpl; try lia.
  specialize (IH n). lia.
Qed.

Lemma list_sum_cons (a : nat) (m : list nat) :
  list_sum (a :: m) = a + list_sum m.
Proof. reflexivity. Qed.

Lemma list_sum_split (f : string -> nat) (t : string) (ds : list string) :
  NoDup ds ->
  list_sum (map f ds)
  = (if key_in t ds then f t else 0)
    + list_sum (map f (filter (fun u => negb (String.eqb u t)) ds)).
Proof.
  induction 1 as [|x ds Hx Hds IH]; [reflexivity|].
  cbn [map filter]. rewrite list_sum_cons.
  unfold key_in in *. cbn [existsb].
  rewrite (String.eqb_sym x t).
  destruct (String.eqb t x) eqn:E; cbn [negb orb].
  - apply String.eqb_eq in E. subst.
    assert (Hk : existsb (String.eqb x) ds = false)
      by now apply key_in_false.
    rewrite Hk in IH. rewrite IH. lia.
  - cbn [map]. rewrite list_sum_cons, IH. lia.
Qed.

(** The frequencies of the distinct tokens add up to the number of
    tokens. *)
Lemma frequencies_total (tokens : list string) :
  list_sum (map (fun t => frequency t tokens) (distinct tokens))
  = length tokens.
Proof.
  induction tokens as [|t l IH]; [reflexivity|].
  cbn [distinct map length]. rewrite list_sum_cons.
  rewrite frequency_cons, String.eqb_refl.
  rewrite (list_sum_split (fun u => frequency u l) t (distinct l)
             (distinct_NoDup l)) in IH.
  assert (Hext : map (fun u => frequency u (t :: l))
                   (filter (fun u => negb (String.eqb u t)) (distinct l))
                 = map (fun u => frequency u l)
                     (filter (fun u => negb (String.eqb u t)) (distinct l))).
  { apply map_ext_in. intros u Hu. apply filter_In in Hu.
    destruct Hu as [_ Hu]. rewrite frequency_cons.
    now destruct (String.eqb u t). }
  rewrite Hext.
  destruct (key_in t (distinct l)) eqn:Ek; [lia|].
  assert (H0 : frequency t l = 0).
  { apply count_occ_not_In. apply key_in_false in Ek.
    intros Hin. apply Ek. now apply distinct_In. }
  lia.
Qed.

(** X8: the counts of the result never add up to more than the number of
    tokens, and they add up to exactly that number when the ranking is at
    least the number of distinct tokens: then no token is left out. *)
Theorem most_common_token_total (texts : list string)
  (stopwords : option (list string)) (ranking : Z) :
  let tokens := spec_tokens texts stopwords in
  let result := most_common_token texts stopwords ranking in
  list_sum (map snd result) <= length tokens /\
  (length (distinct tokens) <= Z.to_nat ranking ->
   list_sum (map snd result) = length tokens /\
   Permutation (dict_keys result) (distinct tokens)).
Proof.
  intros tokens result. unfold result.
  rewrite most_common_token_tokens. fold tokens. unfold most_common.
  assert (Hsum : list_sum (map snd (sorted_by_count_desc (Counter tokens)))
                 = length tokens).
  { rewrite (list_sum_perm _ (map snd (Counter tokens)))
      by (apply Permutation_map, sorted_by_count_desc_perm).
    rewrite Counter_value, map_map. cbn [snd]. apply frequencies_total. }
  split.
  - rewrite <- Hsum, <- firstn_map. apply list_sum_firstn.
  - intros Hlarge.
    rewrite firstn_all2
      by (rewrite sorted_by_count_desc_length, Counter_value, length_map;
          exact Hlarge).
    split; [exact Hsum|].
    unfold dict_keys.
    rewrite (Permutation_map fst (sorted_by_count_desc_perm (Counter tokens))).
    rewrite Counter_value, map_map. cbn [fst]. now rewrite map_id.
Qed.

(** ** annotation_dict *)

Lemma find_app {A} (f : A -> bool) (l1 l2 : list A) :
  find f (l1 ++ l2)
  = match find f l1 with
    | Some x => Some x
    | None => find f l2
    end.
Proof.
  induction l1 as [|x l1 IH]; simpl; [reflexivity|].
  now destruct (f x).
Qed.

Lemma annotation_dict_get_fold (l : list Annotation) (k : string) :
  forall d : dict Annotation,
    dict_get (fold_left (fun d an => dict_set d (uuid an) an) l d) k
    = match find_last (fun a => String.eqb (uuid a) k) l with
      | Some a => Some a
      | None => dict_get d k
      end.
Proof.
  unfold find_last.
  induction l as [|x l IH]; intros d; simpl; [reflexivity|].
  rewrite IH, find_app. simpl.
  destruct (find (fun a => String.eqb (uuid a) k) (rev l)); [reflexivity|].
  destruct (String.eqb (uuid x) k) eqn:E.
  - apply String.eqb_eq in E. subst. apply dict_get_set_same.
  - apply dict_get_set_other. intros Heq. subst.
    now rewrite String.eqb_refl in E.
Qed.

(** X9: looking a UUID up in [annotation_dict] gives the last annotation
    of the collection with that UUID, and nothing (a [KeyError] for
    [an_dict[id]]) when no annotation has it. *)
Theorem annotation_dict_lookup_last (self : AnnotationCollection) (k : string) :
  dict_get (annotation_dict self) k
  = find_last (fun a => String.eqb (uuid a) k) (ac_annotations self) /\
  ((forall a, In a (ac_annotations self) -> uuid a <> k) ->
   dict_item (annotation_dict self) k = Raise KeyError).
Proof.
  assert (H : dict_get (annotation_dict self) k
              = find_last (fun a => String.eqb (uuid a) k)
                  (ac_annotations self)).
  { unfold annotation_dict. rewrite annotation_dict_get_fold.
    now destruct (find_last _ _). }
  split; [exact H|].
  intros Hnone. unfold dict_item. rewrite H. unfold find_last.
  destruct (find _ (rev (ac_annotations self))) as [a|] eqn:E; [|reflexivity].
  apply find_some in E. destruct E as [Hin Heq].
  apply in_rev in Hin. apply String.eqb_eq in Heq. now apply Hnone in Hin.
Qed.

Lemma dict_set_keys {V} (d : dict V) (k : string) (v : V) :
  dict_keys (dict_set d k v)
  = if dict_mem k d then dict_keys d else dict_keys d ++ [k].
Proof.
  unfold dict_mem, dict_keys, key_in.
  induction d as [|[k' v'] d IH]; simpl; [reflexivity|].
  destruct (String.eqb k k') eqn:E; simpl; [reflexivity|].
  rewrite IH. now destruct (existsb (String.eqb k) (map fst d)).
Qed.

Lemma annotation_dict_keys_fold (l : list Annotation) :
  forall d : dict Annotation,
    dict_keys (fold_left (fun d an => dict_set d (uuid an) an) l d)
    = dict_keys d
      ++ filter (fun u => negb (dict_mem u d)) (distinct (map uuid l)).
Proof.
  induction l as [|x l IH]; intros d; simpl.
  - now rewrite app_nil_r.
  - rewrite IH, dict_set_keys. unfold dict_mem at 2 4.
    rewrite dict_set_keys.
    destruct (dict_mem (uuid x) d) eqn:E; cbn [negb].
    + f_equal. rewrite filter_twice. apply filter_ext_in. intros u _.
      unfold dict_mem in *.
      destruct (String.eqb u (uuid x)) eqn:Eu; [|now rewrite andb_true_r].
      apply String.eqb_eq in Eu. subst. now rewrite E.
    + rewrite <- app_assoc. f_equal. cbn [app]. f_equal.
      rewrite filter_twice. apply filter_ext. intros u.
      unfold dict_mem. rewrite key_in_app. unfold key_in at 2. cbn [existsb].
      rewrite orb_false_r. apply negb_orb.
Qed.

(** X10: the keys of [annotation_dict] are the UUIDs of the annotations,
    each once, in the order in which they are first met; so the dict has as
    many entries as the collection has distinct UUIDs. *)
Theorem annotation_dict_keys (self : AnnotationCollection) :
  dict_keys (annotation_dict self)
  = distinct (map uuid (ac_annotations self)) /\
  NoDup (dict_keys (annotation_dict self)) /\
  length (annotation_dict self) <= len self.
Proof.
  assert (H : dict_keys (annotation_dict self)
              = distinct (map uuid (ac_annotations self))).
  { unfold annotation_dict. rewrite annotation_dict_keys_fold. cbn [dict_keys map app].
    apply forallb_filter_id. now apply forallb_forall. }
  split; [exact H|]. split.
  - rewrite H. apply distinct_NoDup.
  - unfold len. rewrite <- (length_map uuid (ac_annotations self)).
    rewrite <- (length_map fst (annotation_dict self)).
    change (map fst (annotation_dict self))
      with (dict_keys (annotation_dict self)).
    rewrite H. apply NoDup_incl_length; [apply distinct_NoDup|].
    intros u Hu. now apply distinct_In.
Qed.

(** ** read_annotation_csv: further properties *)

Lemma row_calls_length (an_dict : dict Annotation) (rows : list (dict pyval)) :
  length (flat_map (row_calls an_dict) rows)
  = length (filter (row_updates an_dict) rows).
Proof.
  induction rows as [|r rows IH]; [reflexivity|].
  cbn [flat_map filter]. rewrite length_app, IH, row_call_updates.
  unfold row_calls. now destruct (row_call an_dict r).
Qed.

(** X11: importing a table made of two tables one after the other applies
    the calls of the first and then those of the second, and its counts are
    the sums of the counts of the two; the number of calls applied is always
    the number of rows counted as updated. *)
Theorem import_loop_app (self : AnnotationCollection)
  (table1 table2 : list (dict pyval)) :
  exists st1 st2 st,
    import_loop self table1 = Ok st1 /\
    import_loop self table2 = Ok st2 /\
    import_loop self (table1 ++ table2) = Ok st /\
    set_calls st = set_calls st1 ++ set_calls st2 /\
    annotation_counter st = annotation_counter st1 + annotation_counter st2 /\
    missed_annotation_counter st
    = missed_annotation_counter st1 + missed_annotation_counter st2 /\
    length (set_calls st) = annotation_counter st.
Proof.
  unfold import_loop. rewrite !import_rows_value.
  do 3 eexists. split; [reflexivity|]. split; [reflexivity|].
  split; [reflexivity|].
  cbn [set_calls annotation_counter missed_annotation_counter app Nat.add].
  rewrite flat_map_app, !filter_app, !length_app, !row_calls_length.
  repeat split; reflexivity.
Qed.

Lemma annotation_output_missing (self : AnnotationCollection) (tags : tags_arg)
  (property : string) (r : dict string) :
  In r (annotation_output self tags property true) ->
  exists an prop,
    In an (ac_annotations self) /\
    In prop (dict_keys (properties an)) /\
    exports self tags property an prop = true /\
    item_value (properties an) prop = [] /\
    r = missing_row self an prop.
Proof.
  unfold annotation_output. intros H.
  apply in_flat_map in H. destruct H as [an [Han H]].
  apply in_flat_map in H. destruct H as [prop [Hprop H]].
  destruct (key_in prop _) eqn:Esel; [|destruct H].
  destruct (Nat.ltb _ 1) eqn:Elen; [|destruct H].
  destruct H as [<- | []].
  exists an, prop. split; [|split; [exact Hprop|split; [|split]]].
  - destruct (tags_is_all tags); [exact Han|].
    apply filter_In in Han. now destruct Han.
  - unfold exports. rewrite Esel, andb_true_r.
    destruct (tags_is_all tags); [reflexivity|].
    apply filter_In in Han. now destruct Han.
  - apply Nat.ltb_lt in Elen.
    destruct (item_value (properties an) prop); [reflexivity|].
    simpl in Elen. lia.
  - reflexivity.
Qed.



(** ** write_annotation_csv: further properties *)

(** X13: every row written with [only_missing_prop_values] is, up to the
    order of its fields, a row of the file written without it, and its
    values field is empty. *)
Theorem missing_rows_in_full_export (self : AnnotationCollection)
  (tags : tags_arg) (property : string) (r : dict string) :
  In r (annotation_output self tags property true) ->
  exists r',
    In r' (annotation_output self tags property false) /\
    Permutation r r' /\
    dict_get r "values" = Some "".
Proof.
  intros H. apply annotation_output_missing in H.
  destruct H as [an [prop [Han [Hprop [Hexp [Hempty ->]]]]]].
  exists (export_row self an prop). split; [|split].
  - now apply export_row_written.
  - unfold missing_row, export_row. rewrite Hempty. cbn [str_join].
    do 2 apply perm_skip. apply perm_swap.
  - reflexivity.
Qed.

Lemma missing_rows_in_full_export_witness :
  exists r',
    In r' (annotation_output example_ac (TagsStr "all") "all" false) /\
    Permutation
      (missing_row example_ac
         (example_annotation "U1" example_tag
            [("color", ["red"; "blue"]); ("size", [])] 0) "size") r' /\
    dict_get
      (missing_row example_ac
         (example_annotation "U1" example_tag
            [("color", ["red"; "blue"]); ("size", [])] 0) "size") "values"
    = Some "".
Proof.
  apply (missing_rows_in_full_export example_ac (TagsStr "all") "all").
  vm_compute. left. reflexivity.
Defined.

Lemma flat_map_ext_in {A B} (f g : A -> list B) (l : list A) :
  (forall x, In x l -> f x = g x) -> flat_map f l = flat_map g l.
Proof.
  induction l as [|x l IH]; intros H; [reflexivity|].
  cbn [flat_map]. rewrite (H x) by now left.
  rewrite IH; [reflexivity|]. intros y Hy. apply H. now right.
Qed.

Lemma flat_map_single {A B} (h : A -> B) (l : list A) :
  flat_map (fun x => [h x]) l = map h l.
Proof. induction l as [|x l IH]; [reflexivity|]. cbn. now rewrite IH. Qed.

(** X14: for a collection whose table is the one its annotations give and
    whose property names do not hold the text [prop:], the export of all
    tags and all properties has one row for every property of every
    annotation, in the order of the annotations and of their properties. *)
Theorem full_export_rows (self : AnnotationCollection)
  (text_title name : string) :
  Forall annotation_wf (ac_annotations self) ->
  ac_to_df (ac_annotations self) text_title name = Ok (ac_df self) ->
  (forall a k, In a (ac_annotations self) ->
               In k (dict_keys (properties a)) ->
               str_in "prop:" k = false) ->
  annotation_output self (TagsStr "all") "all" false
  = flat_map (fun an => map (export_row self an) (dict_keys (properties an)))
      (ac_annotations self).
Proof.
  intros Hwf Hdf Hnames.
  unfold annotation_output. cbn [tags_is_all].
  replace (String.eqb "all" "all") with true by reflexivity.
  rewrite (prop_cols_of_table _ _ _ _ Hwf Hnames Hdf).
  apply flat_map_ext_in. intros an Han.
  rewrite <- (flat_map_single (export_row self an)).
  apply flat_map_ext_in. intros prop Hprop.
  assert (Hseen : key_in prop (seen_keys (map properties (ac_annotations self)))
                  = true).
  { apply key_in_true. apply seen_from_In. right.
    exists (properties an). split; [now apply in_map | exact Hprop]. }
  now rewrite Hseen.
Qed.

Lemma full_export_rows_witness :
  annotation_output example_ac (TagsStr "all") "all" false
  = flat_map (fun an => map (export_row example_ac an)
                          (dict_keys (properties an)))
      (ac_annotations example_ac).
Proof.
  apply (full_export_rows example_ac "Title" "Collection").
  - vm_compute. repeat constructor; simpl; intuition discriminate.
  - vm_compute. reflexivity.
  - intros a k Ha Hk. vm_compute in Ha.
    destruct Ha as [<- | [<- | [<- | []]]]; vm_compute in Hk;
      intuition (subst; reflexivity).
Defined.

(** ** to_list and to_pygamma_table *)

Lemma cell_eqb_str_trans (n : string) (c d : cell) :
  cell_eqb (CStr n) d = true -> cell_eqb d c = true ->
  cell_eqb (CStr n) c = true.
Proof.
  destruct d as [s | z | |]; try discriminate.
  destruct c as [t | z | |]; try discriminate.
  simpl. intros H1 H2. apply String.eqb_eq in H1, H2. subst.
  apply String.eqb_refl.
Qed.

Lemma existsb_unique_cells (n : string) (col : list cell) :
  existsb (cell_eqb (CStr n)) (unique_cells col)
  = existsb (cell_eqb (CStr n)) col.
Proof.
  induction col as [|c col IH]; [reflexivity|].
  cbn [unique_cells existsb]. rewrite <- IH.
  destruct (cell_eqb (CStr n) c) eqn:E; [reflexivity|]. cbn [orb].
  clear IH. induction (unique_cells col) as [|d l IHl]; [reflexivity|].
  cbn [filter existsb].
  destruct (cell_eqb d c) eqn:Ed; cbn [negb].
  - rewrite IHl. destruct (cell_eqb (CStr n) d) eqn:En; [|reflexivity].
    rewrite (cell_eqb_str_trans n c d En Ed) in E. discriminate.
  - cbn [existsb]. now rewrite IHl.
Qed.

Lemma to_list_given_tags {D} (to_dict : Annotation -> D)
  (self : AnnotationCollection) (t : string) (ts : list string) :
  to_list D to_dict self (Some (t :: ts))
  = Ok (map to_dict
          (filter (fun an => key_in (tag_name (tag an)) (t :: ts))
             (ac_annotations self))).
Proof.
  unfold to_list. cbn [bind]. f_equal. f_equal. apply filter_ext.
  intros an. unfold key_in. generalize (t :: ts). intros l.
  induction l as [|u l IH]; [reflexivity|].
  cbn [map existsb cell_eqb]. now rewrite IH.
Qed.

Lemma in_sync_columns (self : AnnotationCollection) :
  table_in_sync self ->
  Forall annotation_wf (ac_annotations self) ->
  n_rows (ac_df self) = len self /\
  df_get (ac_df self) "annotator"
  = Ok (map (fun a => CStr (author a)) (ac_annotations self)) /\
  df_get (ac_df self) "tag"
  = Ok (map (fun a => CStr (tag_name (tag a))) (ac_annotations self)) /\
  df_get (ac_df self) "start_point"
  = Ok (map (fun a => CInt (start_point a)) (ac_annotations self)) /\
  df_get (ac_df self) "end_point"
  = Ok (map (fun a => CInt (end_point a)) (ac_annotations self)).
Proof.
  intros [Hsync | [Hnil Hdf]] Hwf.
  - rewrite ac_to_df_value in Hsync by exact Hwf.
    injection Hsync as Hdf. rewrite <- Hdf. unfold len.
    repeat split; reflexivity.
  - rewrite Hdf. unfold len. rewrite Hnil. repeat split; reflexivity.
Qed.

Lemma example_ac_in_sync : table_in_sync example_ac.
Proof. left. vm_compute. reflexivity. Defined.

Lemma example_ac_wf : Forall annotation_wf (ac_annotations example_ac).
Proof.
  vm_compute. repeat constructor; simpl; intuition discriminate.
Defined.

(** X15: for a collection whose table is the one its annotations give,
    [to_list] without tags, or with an empty list of tags, returns the
    projection of every annotation, in the order of the collection; with a
    non-empty list of tags it returns the projections of the annotations
    whose tag name is in the list. *)
Theorem to_list_selection (D : Type) (to_dict : Annotation -> D)
  (self : AnnotationCollection) :
  table_in_sync self ->
  Forall annotation_wf (ac_annotations self) ->
  to_list D to_dict self None = Ok (map to_dict (ac_annotations self)) /\
  to_list D to_dict self (Some []) = Ok (map to_dict (ac_annotations self)) /\
  forall t ts,
    to_list D to_dict self (Some (t :: ts))
    = Ok (map to_dict
            (filter (fun an => key_in (tag_name (tag an)) (t :: ts))
               (ac_annotations self))).
Proof.
  intros Hsync Hwf.
  destruct (in_sync_columns self Hsync Hwf) as [_ [_ [Htag _]]].
  assert (Hall : to_list D to_dict self None
                 = Ok (map to_dict (ac_annotations self))).
  { unfold to_list, df_attr. rewrite Htag. cbn [bind]. unfold series_unique.
    replace (forallb cell_hashable
               (map (fun a => CStr (tag_name (tag a))) (ac_annotations self)))
      with true
      by (symmetry; apply forallb_forall; intros c Hc;
          apply in_map_iff in Hc; destruct Hc as [a [<- _]]; reflexivity).
    cbn [bind]. f_equal. f_equal. apply forallb_filter_id.
    apply forallb_forall. intros an Han.
    rewrite existsb_unique_cells. apply existsb_exists.
    exists (CStr (tag_name (tag an))). split.
    - apply in_map_iff. now exists an.
    - simpl. apply String.eqb_refl. }
  split; [exact Hall|]. split; [exact Hall|].
  intros t ts. apply to_list_given_tags.
Qed.

Lemma to_list_selection_witness :
  to_list Annotation (fun a => a) example_ac None
  = Ok (map (fun a => a) (ac_annotations example_ac)) /\
  to_list Annotation (fun a => a) example_ac (Some [])
  = Ok (map (fun a => a) (ac_annotations example_ac)) /\
  forall t ts,
    to_list Annotation (fun a => a) example_ac (Some (t :: ts))
    = Ok (map (fun a => a)
            (filter (fun an => key_in (tag_name (tag an)) (t :: ts))
               (ac_annotations example_ac))).
Proof.
  exact (to_list_selection Annotation (fun a => a) example_ac
           example_ac_in_sync example_ac_wf).
Defined.

(** X16: for a collection whose table is the one its annotations give,
    [to_pygamma_table] does not raise and returns a table with one row per
    annotation and exactly the four columns annotator, tag, start_point and
    end_point, row by row the values of the annotations. *)
Theorem to_pygamma_table_value (self : AnnotationCollection) :
  table_in_sync self ->
  Forall annotation_wf (ac_annotations self) ->
  to_pygamma_table self
  = Ok (mkDF (len self)
          [ ("annotator", map (fun a => CStr (author a)) (ac_annotations self));
            ("tag",
             map (fun a => CStr (tag_name (tag a))) (ac_annotations self));
            ("start_point",
             map (fun a => CInt (start_point a)) (ac_annotations self));
            ("end_point",
             map (fun a => CInt (end_point a)) (ac_annotations self)) ]).
Proof.
  intros Hsync Hwf.
  destruct (in_sync_columns self Hsync Hwf) as [Hn [H1 [H2 [H3 H4]]]].
  unfold to_pygamma_table, df_columns_subset. cbn [mapM].
  rewrite H1, H2, H3, H4. cbn [bind]. now rewrite Hn.
Qed.

Lemma to_pygamma_table_value_witness :
  to_pygamma_table example_ac
  = Ok (mkDF (len example_ac)
          [ ("annotator",
             map (fun a => CStr (author a)) (ac_annotations example_ac));
            ("tag",
             map (fun a => CStr (tag_name (tag a)))
               (ac_annotations example_ac));
            ("start_point",
             map (fun a => CInt (start_point a)) (ac_annotations example_ac));
            ("end_point",
             map (fun a => CInt (end_point a)) (ac_annotations example_ac)) ]).
Proof.
  exact (to_pygamma_table_value example_ac example_ac_in_sync example_ac_wf).
Defined.

(** ** The constructor: further properties *)

Lemma insert_sorted_perm (lt : Annotation -> Annotation -> bool)
  (x : Annotation) (l : list Annotation) :
  Permutation (insert_sorted lt x l) (x :: l).
Proof.
  induction l as [|y l IH]; simpl; [reflexivity|].
  destruct (lt y x); [|reflexivity].
  rewrite IH. apply perm_swap.
Qed.

Lemma sorted_perm (lt : Annotation -> Annotation -> bool)
  (l : list Annotation) : Permutation (sorted lt l) l.
Proof.
  induction l as [|x l IH]; simpl; [reflexivity|].
  rewrite insert_sorted_perm. now constructor.
Qed.

(** What a successful construction has read and built. *)
Lemma init_inversion (w : World) (uuid_arg : string)
  (catma_project : CatmaProject) (context : Z) (self : AnnotationCollection) :
  let directory := (project_uuid catma_project ++ "/collections/"
                    ++ uuid_arg ++ "/")%string in
  init w uuid_arg catma_project context = Ok self ->
  exists header,
    open_header w (directory ++ "header.json") = Ok header /\
    ac_header self = header /\
    dict_get header "name" = Some (ac_name self) /\
    dict_get header "sourceDocumentId" = Some (ac_plain_text_id self) /\
    load_text w (project_uuid catma_project) (ac_plain_text_id self)
    = Ok (ac_text self) /\
    ac_text_version self = dict_get header "sourceDocumentVersion" /\
    ac_directory self = directory /\
    ((isdir w (directory ++ "annotations/") = false /\
      ac_annotations self = [] /\ ac_tags self = None /\
      ac_df self = DataFrame_empty df_columns)
     \/
     (isdir w (directory ++ "annotations/") = true /\
      exists loaded,
        load_annotations w catma_project uuid_arg context = Ok loaded /\
        ac_annotations self = sorted (annotation_lt w) loaded /\
        ac_tags self = Some (map tag (ac_annotations self)) /\
        ac_to_df (ac_annotations self) (title (ac_text self)) (ac_name self)
        = Ok (ac_df self))).
Proof.
  intros directory. unfold init. fold directory.
  destruct (open_header w (directory ++ "header.json")) as [header|e];
    [|destruct e; discriminate].
  cbn [bind]. unfold dict_item.
  destruct (dict_get header "name") as [name|] eqn:Hname; [|discriminate].
  cbn [bind].
  destruct (dict_get header "sourceDocumentId") as [pid|] eqn:Hid;
    [|discriminate].
  cbn [bind].
  destruct (load_text w (project_uuid catma_project) pid) as [text|e]
    eqn:Htext; [|discriminate].
  cbn [bind].
  destruct (isdir w (directory ++ "annotations/")) eqn:Hdir.
  - destruct (load_annotations w catma_project uuid_arg context)
      as [loaded|e] eqn:Hload; [|discriminate].
    cbn [bind].
    destruct (ac_to_df (sorted (annotation_lt w) loaded) (title text) name)
      as [df|e] eqn:Hdf; [|discriminate].
    cbn [bind]. intros H. injection H as <-. cbn.
    exists header. repeat (split; [reflexivity || assumption|]).
    right. split; [reflexivity|]. exists loaded.
    repeat (split; [reflexivity || assumption|]). exact Hdf.
  - intros H. injection H as <-. cbn.
    exists header. repeat (split; [reflexivity || assumption|]).
    left. repeat split; reflexivity.
Qed.

(** X17: with a header file that lacks the key [name] or the key
    [sourceDocumentId] the constructor raises [KeyError]. *)
Theorem init_header_keys (w : World) (uuid_arg : string)
  (catma_project : CatmaProject) (context : Z) (header : dict string) :
  let directory := (project_uuid catma_project ++ "/collections/"
                    ++ uuid_arg ++ "/")%string in
  open_header w (directory ++ "header.json") = Ok header ->
  dict_mem "name" header = false
  \/ dict_mem "sourceDocumentId" header = false ->
  init w uuid_arg catma_project context = Raise KeyError.
Proof.
  intros directory Hopen Hmissing. unfold init. fold directory.
  rewrite Hopen. cbn [bind]. unfold dict_item.
  destruct (dict_get header "name") eqn:Hname.
  - destruct Hmissing as [H | H].
    + apply dict_get_none in H. congruence.
    + apply dict_get_none in H. cbn [bind]. now rewrite H.
  - reflexivity.
Qed.

Lemma init_header_keys_witness :
  init (example_world_with_header [("name", "Collection")]) "C"
    example_project 50
  = Raise KeyError.
Proof.
  apply (init_header_keys (example_world_with_header [("name", "Collection")])
           "C" example_project 50 [("name", "Collection")]).
  - reflexivity.
  - right. reflexivity.
Defined.

(** X18: a collection that the constructor has built has a table that is
    the one its annotations give, with one row per annotation; when the
    directory of the annotations exists its annotations are those loaded
    from the page files, reordered, and its tags are the tags of its
    annotations in the same order; when the directory is missing it has no
    annotation.  Its name is the entry [name] of its header, and its
    document version the entry [sourceDocumentVersion], or [None] when the
    header has no such entry. *)
Theorem init_invariant (w : World) (uuid_arg : string)
  (catma_project : CatmaProject) (context : Z) (self : AnnotationCollection) :
  init w uuid_arg catma_project context = Ok self ->
  Forall annotation_wf (ac_annotations self) ->
  table_in_sync self /\
  n_rows (ac_df self) = len self /\
  (isdir w (ac_directory self ++ "annotations/") = true ->
   exists loaded,
     load_annotations w catma_project uuid_arg context = Ok loaded /\
     Permutation (ac_annotations self) loaded /\
     len self = length loaded /\
     ac_tags self = Some (map tag (ac_annotations self))) /\
  (isdir w (ac_directory self ++ "annotations/") = false ->
   ac_annotations self = []) /\
  dict_get (ac_header self) "name" = Some (ac_name self) /\
  ac_text_version self = dict_get (ac_header self) "sourceDocumentVersion".
Proof.
  intros Hself Hwf.
  destruct (init_inversion w uuid_arg catma_project context self Hself)
    as [h [_ [Hh [Hname [_ [_ [Hversion [Hdir Hcase]]]]]]]].
  rewrite Hdir, Hh.
  cut ((table_in_sync self /\
        n_rows (ac_df self) = len self /\
        (isdir w
           ((project_uuid catma_project ++ "/collections/" ++ uuid_arg ++ "/")
            ++ "annotations/") = true ->
         exists loaded,
           load_annotations w catma_project uuid_arg context = Ok loaded /\
           Permutation (ac_annotations self) loaded /\
           len self = length loaded /\
           ac_tags self = Some (map tag (ac_annotations self))) /\
        (isdir w
           ((project_uuid catma_project ++ "/collections/" ++ uuid_arg ++ "/")
            ++ "annotations/") = false ->
         ac_annotations self = []))).
  { intros [H1 [H2 [H3 H4]]]. repeat (split; [assumption|]). assumption. }
  assert (Hsync : table_in_sync self).
  { destruct Hcase as [[_ [Hnil [_ Hdf]]] | [_ [loaded [_ [_ [_ Hdf]]]]]].
    - right. now split.
    - left. exact Hdf. }
  split; [exact Hsync|]. split; [apply (in_sync_columns self Hsync Hwf)|].
  destruct Hcase as [[Hno [Hnil _]] | [Hyes [loaded [Hload [Hsorted [Htags _]]]]]].
  - split; [intros H; congruence | intros _; exact Hnil].
  - split; [|intros H; congruence]. intros _. exists loaded.
    split; [exact Hload|]. split; [rewrite Hsorted; apply sorted_perm|].
    split; [|exact Htags].
    unfold len. rewrite Hsorted. apply Permutation_length, sorted_perm.
Qed.

Lemma init_invariant_witness :
  table_in_sync example_ac /\
  n_rows (ac_df example_ac) = len example_ac /\
  (isdir (example_world (Some example_annotations))
     (ac_directory example_ac ++ "annotations/") = true ->
   exists loaded,
     load_annotations (example_world (Some example_annotations))
       example_project "C" 50 = Ok loaded /\
     Permutation (ac_annotations example_ac) loaded /\
     len example_ac = length loaded /\
     ac_tags example_ac = Some (map tag (ac_annotations example_ac))) /\
  (isdir (example_world (Some example_annotations))
     (ac_directory example_ac ++ "annotations/") = false ->
   ac_annotations example_ac = []) /\
  dict_get (ac_header example_ac) "name" = Some (ac_name example_ac) /\
  ac_text_version example_ac
  = dict_get (ac_header example_ac) "sourceDocumentVersion".
Proof.
  exact (init_invariant (example_world (Some example_annotations)) "C"
           example_project 50 example_ac example_ac_built example_ac_wf).
Defined.

(** ** The property names and the tag selection of the export *)

(** X19: the property names that [write_annotation_csv] and the error of
    [duplicate_by_prop] read off the labels of a table built by [ac_to_df]
    are the property names of the annotations, each once, in the order in
    which they are first met, as long as no name holds the text [prop:]. *)
Theorem prop_cols_property_names (annotations : list Annotation)
  (text_title name : string) (df : DataFrame) :
  Forall annotation_wf annotations ->
  (forall a k, In a annotations -> In k (dict_keys (properties a)) ->
               str_in "prop:" k = false) ->
  ac_to_df annotations text_title name = Ok df ->
  prop_cols df
  = distinct (flat_map (fun a => dict_keys (properties a)) annotations).
Proof.
  intros Hwf Hnames Hdf.
  rewrite (prop_cols_of_table _ _ _ _ Hwf Hnames Hdf).
  unfold seen_keys.
  rewrite seen_from_distinct by (apply Forall_map; exact Hwf).
  cbn [app]. rewrite flat_map_concat_map, map_map, <- flat_map_concat_map.
  apply forallb_filter_id. now apply forallb_forall.
Qed.

Lemma prop_cols_property_names_witness :
  prop_cols (ac_df example_ac)
  = distinct (flat_map (fun a => dict_keys (properties a))
                (ac_annotations example_ac)).
Proof.
  apply (prop_cols_property_names (ac_annotations example_ac) "Title"
           "Collection").
  - exact example_ac_wf.
  - intros a k Ha Hk. vm_compute in Ha.
    destruct Ha as [<- | [<- | [<- | []]]]; vm_compute in Hk;
      intuition (subst; reflexivity).
  - vm_compute. reflexivity.
Defined.

Lemma export_row_tag (self : AnnotationCollection) (an an' : Annotation)
  (prop prop' : string) :
  export_row self an' prop' = export_row self an prop ->
  tag_name (tag an') = tag_name (tag an).
Proof. unfold export_row. intros H. now injection H. Qed.

(** X20: when [tags] is a string other than 'all', the row of a selected
    property of an annotation is written exactly when the name of its tag
    is a substring of that string; when [tags] is a list, exactly when the
    name is an element of the list. *)
Theorem export_tag_selection (self : AnnotationCollection) (tags : tags_arg)
  (property : string) (an : Annotation) (prop : string) :
  tags_is_all tags = false ->
  In an (ac_annotations self) ->
  In prop (dict_keys (properties an)) ->
  key_in prop (if String.eqb property "all" then prop_cols (ac_df self)
               else [property]) = true ->
  (In (export_row self an prop) (annotation_output self tags property false)
   <-> match tags with
       | TagsStr s => str_in (tag_name (tag an)) s = true
       | TagsList l => In (tag_name (tag an)) l
       end).
Proof.
  intros Hall Han Hprop Hsel.
  assert (Hiff : In (export_row self an prop)
                   (annotation_output self tags property false)
                 <-> tags_contains tags (tag_name (tag an)) = true).
  { split.
    - unfold annotation_output. rewrite Hall. intros H.
      apply in_flat_map in H. destruct H as [an' [Han' H]].
      apply in_flat_map in H. destruct H as [prop' [_ H]].
      destruct (key_in prop' _); [|destruct H].
      destruct H as [H | []]. apply export_row_tag in H.
      apply filter_In in Han'. destruct Han' as [_ Hc]. now rewrite <- H.
    - intros Hc. apply export_row_written; [exact Han | exact Hprop|].
      unfold exports. now rewrite Hc, Hsel, orb_true_r. }
  rewrite Hiff. destruct tags as [s | l]; cbn [tags_contains].
  - reflexivity.
  - apply key_in_true.
Qed.

Lemma export_tag_selection_witness :
  In (export_row example_ac
        (example_annotation "U1" example_tag
           [("color", ["red"; "blue"]); ("size", [])] 0) "color")
     (annotation_output example_ac (TagsStr "Heroine") "all" false)
  <-> str_in "Hero" "Heroine" = true.
Proof.
  apply (export_tag_selection example_ac (TagsStr "Heroine") "all"
           (example_annotation "U1" example_tag
              [("color", ["red"; "blue"]); ("size", [])] 0) "color").
  - reflexivity.
  - vm_compute. left. reflexivity.
  - vm_compute. left. reflexivity.
  - vm_compute. reflexivity.
Defined.
